(** * Lemons Leads: the waitlist intake and admin reporting API

    A shallow embedding of the Express handlers of the backend and of
    the SQLite table they use, followed by the properties of the
    handlers. The handlers are those of the server with sanitisation,
    statistics and CSV export; the intake handler of the earlier
    server.js is embedded next to them.

    Conventions.
    - A JavaScript string is the list of its UTF-16 code units; [length]
      is JavaScript's [.length].
    - A handler is a computation over a [World] (the database file, the
      process environment and a trace of the effects performed) that may
      reject, as a promise does.
    - Times are whole seconds; SQLite's textual timestamps
      (YYYY-MM-DD HH:MM:SS) are ordered as the seconds they denote. *)

From Stdlib Require Import List ZArith NArith Lia Bool String Ascii.
From Stdlib Require Import Permutation Sorted DecimalString DecimalPos.
Import ListNotations.

Set Implicit Arguments.

(* ------------------------------------------------------------------ *)
(** ** JavaScript strings *)

Abbreviation char16 := N (only parsing).
Abbreviation jsstring := (list N) (only parsing).

(** The string written by a literal of the source. *)
Definition js (s : string) : jsstring :=
  map N_of_ascii (list_ascii_of_string s).

Definition jsstring_eq_dec : forall a b : jsstring, {a = b} + {a <> b} :=
  list_eq_dec N.eq_dec.

Definition str_eqb (a b : jsstring) : bool :=
  if jsstring_eq_dec a b then true else false.

(** WhiteSpace and LineTerminator of ECMAScript: what [\s] matches and
    what [String.prototype.trim] removes. *)
Definition is_space (c : char16) : bool :=
  ((9 <=? c) && (c <=? 13)          (* TAB LF VT FF CR *)
   || (c =? 32)                     (* SP *)
   || (c =? 160)                    (* NBSP *)
   || (c =? 5760)                   (* U+1680 *)
   || ((8192 <=? c) && (c <=? 8202))  (* U+2000 .. U+200A *)
   || (c =? 8232) || (c =? 8233)    (* LS PS *)
   || (c =? 8239) || (c =? 8287)    (* U+202F U+205F *)
   || (c =? 12288)                  (* U+3000 *)
   || (c =? 65279))%N.              (* U+FEFF *)

Fixpoint trimStart (s : jsstring) : jsstring :=
  match s with
  | [] => []
  | c :: t => if is_space c then trimStart t else s
  end.

Definition trimEnd (s : jsstring) : jsstring := rev (trimStart (rev s)).

(** [input.trim()] *)
Definition trim (s : jsstring) : jsstring := trimEnd (trimStart s).

Definition is_angle (c : char16) : bool := ((c =? 60) || (c =? 62))%N.

(** [s.replace(/[<>]/g, '')] *)
Definition strip_angles (s : jsstring) : jsstring :=
  filter (fun c => negb (is_angle c)) s.

(** [function sanitizeInput(input)] *)
Definition sanitizeInput (input : jsstring) : jsstring :=
  strip_angles (trim input).

(** [Array.prototype.join] on strings. *)
Fixpoint join (sep : jsstring) (l : list jsstring) : jsstring :=
  match l with
  | [] => []
  | [x] => x
  | x :: t => x ++ sep ++ join sep t
  end.

(** Decimal text of a non-negative integer, as [String(n)] gives it. *)
Definition dec (n : Z) : jsstring :=
  js (NilZero.string_of_int (Z.to_int n)).

(* ------------------------------------------------------------------ *)
(** ** Regular expressions

    The fragment used by the source: character classes, concatenation
    and repetition, matched against the whole string (the pattern is
    anchored by [^] and [$] and carries no flag). *)

Module Regex.

Inductive regex : Type :=
| Void
| Eps
| Class (p : char16 -> bool)
| Cat (r1 r2 : regex)
| Alt (r1 r2 : regex)
| Star (r : regex).

(** [r+] *)
Definition Plus (r : regex) : regex := Cat r (Star r).

Inductive lang : regex -> jsstring -> Prop :=
| L_eps : lang Eps []
| L_class p c : p c = true -> lang (Class p) [c]
| L_cat r1 r2 u v : lang r1 u -> lang r2 v -> lang (Cat r1 r2) (u ++ v)
| L_alt_l r1 r2 u : lang r1 u -> lang (Alt r1 r2) u
| L_alt_r r1 r2 u : lang r2 u -> lang (Alt r1 r2) u
| L_star_nil r : lang (Star r) []
| L_star_cons r u v : lang r u -> lang (Star r) v -> lang (Star r) (u ++ v).

Fixpoint nullable (r : regex) : bool :=
  match r with
  | Void => false
  | Eps => true
  | Class _ => false
  | Cat r1 r2 => nullable r1 && nullable r2
  | Alt r1 r2 => nullable r1 || nullable r2
  | Star _ => true
  end.

Fixpoint deriv (c : char16) (r : regex) : regex :=
  match r with
  | Void => Void
  | Eps => Void
  | Class p => if p c then Eps else Void
  | Cat r1 r2 =>
      if nullable r1
      then Alt (Cat (deriv c r1) r2) (deriv c r2)
      else Cat (deriv c r1) r2
  | Alt r1 r2 => Alt (deriv c r1) (deriv c r2)
  | Star r1 => Cat (deriv c r1) (Star r1)
  end.

(** [r.test(s)] for an anchored pattern. *)
Fixpoint test (r : regex) (s : jsstring) : bool :=
  match s with
  | [] => nullable r
  | c :: t => test (deriv c r) t
  end.

End Regex.

Definition not_space_or_at (c : char16) : bool :=
  negb (is_space c || (c =? 64)%N).

(** [/^[^\s@]+@[^\s@]+\.[^\s@]+$/] *)
Definition emailRegex : Regex.regex :=
  Regex.Cat (Regex.Plus (Regex.Class not_space_or_at))
    (Regex.Cat (Regex.Class (N.eqb 64))
       (Regex.Cat (Regex.Plus (Regex.Class not_space_or_at))
          (Regex.Cat (Regex.Class (N.eqb 46))
             (Regex.Plus (Regex.Class not_space_or_at))))).

(** [function validateEmail(email)], on a string. *)
Definition validateEmail (email : jsstring) : bool :=
  Regex.test emailRegex email.

(* ------------------------------------------------------------------ *)
(** ** Values of a request body *)

(** A field of [req.body] as a form posts it: absent, [null] or text. *)
Inductive jsval : Type :=
| Undefined
| Null
| Str (s : jsstring).

(** JavaScript truthiness: [!v] is [negb (truthy v)]. *)
Definition truthy (v : jsval) : bool :=
  match v with
  | Str (_ :: _) => true
  | _ => false
  end.

(** [v && v.length > n] *)
Definition and_length_gt (v : jsval) (n : nat) : bool :=
  match v with
  | Str s => truthy v && (n <? List.length s)%nat
  | _ => false
  end.

(** [v ? sanitizeInput(v) : null] *)
Definition sanitize_or_null (v : jsval) : option jsstring :=
  match v with
  | Str s => if truthy v then Some (sanitizeInput s) else None
  | _ => None
  end.

(** [a || b] on values that are a string or [undefined]. *)
Definition or_else (a b : option jsstring) : option jsstring :=
  match a with
  | Some (_ :: _) => a
  | _ => b
  end.

Record Body : Type := mkBody {
  b_name : jsval;
  b_email : jsval;
  b_phone : jsval;
  b_company : jsval;
  b_plan : jsval;
  b_biggest_challenge : jsval
}.

Record Request : Type := mkRequest {
  body : Body;
  req_ip : option jsstring;            (* req.ip *)
  remoteAddress : option jsstring;     (* req.connection.remoteAddress *)
  user_agent_header : option jsstring; (* req.get('User-Agent') *)
  x_admin_key : option jsstring        (* req.headers['x-admin-key'] *)
}.

(* ------------------------------------------------------------------ *)
(** ** The waitlist table *)

Record Row : Type := mkRow {
  id : Z;
  name : jsstring;
  email : jsstring;
  phone : option jsstring;
  company : jsstring;
  plan : option jsstring;
  biggest_challenge : jsstring;
  created_at : Z;
  ip_address : option jsstring;
  user_agent : option jsstring
}.

(** The database file: whether it could be opened, the rows in rowid
    order and the AUTOINCREMENT sequence. *)
Record Db : Type := mkDb {
  available : bool;
  rows : list Row;
  seq : Z
}.

Inductive Query : Type :=
| SelectIdByEmail (e : jsstring)
| InsertRow (nm em : jsstring) (ph : option jsstring) (co : jsstring)
    (pl : option jsstring) (ch : jsstring) (ip ua : option jsstring)
| SelectAllDesc
| SelectCount
| SelectPlanStats
| SelectRecent
| SelectTopCompanies.

Inductive Err : Type :=
| SqliteError (msg : string)
| TypeError (msg : string)
| TransportError (msg : jsstring).

Record MailOptions : Type := mkMail {
  mail_from : jsstring;
  mail_to : jsstring;
  mail_subject : jsstring;
  mail_html : jsstring
}.

Inductive Event : Type :=
| EvSql (q : Query)
| EvSendMail (m : MailOptions)
| EvLog (msg : jsstring)
| EvError (prefix : string) (e : Err).

Record Env : Type := mkEnv {
  ADMIN_KEY : option jsstring;
  EMAIL_USER : option jsstring
}.

Record World : Type := mkWorld {
  db : Db;
  env : Env;
  trace : list Event      (* most recent effect first *)
}.

(* ------------------------------------------------------------------ *)
(** ** Promises: state and rejection *)

Inductive Outcome (A : Type) : Type :=
| Resolved (a : A)
| Rejected (e : Err).
Arguments Rejected {A} e.

Definition M (A : Type) : Type := World -> Outcome A * World.

Definition ret {A} (a : A) : M A := fun w => (Resolved a, w).

Definition throw {A} (e : Err) : M A := fun w => (Rejected e, w).

Definition bind {A B} (c : M A) (k : A -> M B) : M B :=
  fun w =>
    match c w with
    | (Resolved a, w') => k a w'
    | (Rejected e, w') => (Rejected e, w')
    end.

Definition try_catch {A} (c : M A) (handler : Err -> M A) : M A :=
  fun w =>
    match c w with
    | (Resolved a, w') => (Resolved a, w')
    | (Rejected e, w') => handler e w'
    end.

Declare Scope promise_scope.
Delimit Scope promise_scope with promise.
Notation "x <- c ;; k" := (bind c (fun x => k))
  (at level 61, c at next level, right associativity) : promise_scope.
Notation "c ;;; k" := (bind c (fun _ => k))
  (at level 61, right associativity) : promise_scope.
Local Open Scope promise_scope.

Definition emit (e : Event) : M unit :=
  fun w => (Resolved tt, mkWorld (db w) (env w) (e :: trace w)).

Definition getenv : M Env := fun w => (Resolved (env w), w).

(** [console.log] and [console.error] *)
Definition console_log (msg : jsstring) : M unit := emit (EvLog msg).
Definition console_error (prefix : string) (e : Err) : M unit :=
  emit (EvError prefix e).

(* ------------------------------------------------------------------ *)
(** ** SQL statements of the handlers *)

Definition max_id (rs : list Row) : Z :=
  fold_right (fun r m => Z.max (id r) m) 0%Z rs.

(** AUTOINCREMENT: one more than the largest rowid that ever existed. *)
Definition next_rowid (d : Db) : Z := (Z.max (seq d) (max_id (rows d)) + 1)%Z.

Definition email_is (e : jsstring) (r : Row) : bool := str_eqb (email r) e.

Section SortDesc.
Variable A : Type.
Variable key : A -> Z.

Fixpoint insert_desc (x : A) (l : list A) : list A :=
  match l with
  | [] => [x]
  | y :: t => if (key y <=? key x)%Z then x :: l else y :: insert_desc x t
  end.

(** [ORDER BY key DESC]; rows with equal keys keep their scan order,
    which SQL leaves open. *)
Definition sort_desc (l : list A) : list A := fold_right insert_desc [] l.
End SortDesc.

(** [GROUP BY k] with [COUNT( * )]: one pair per distinct key, in an
    order SQL leaves open. *)
Definition group_count (keys : list jsstring) : list (jsstring * Z) :=
  map (fun k => (k, Z.of_nat (count_occ jsstring_eq_dec keys k)))
      (nodup jsstring_eq_dec keys).

Definition non_null_plans (rs : list Row) : list jsstring :=
  flat_map (fun r => match plan r with Some p => [p] | None => [] end) rs.

Definition seven_days : Z := (7 * 86400)%Z.

(** Every statement fails when the database could not be opened. *)
Definition on_db {A} (q : Query) (f : Db -> Outcome A * Db) : M A :=
  fun w =>
    let w1 := mkWorld (db w) (env w) (EvSql q :: trace w) in
    if available (db w)
    then let '(o, d) := f (db w) in (o, mkWorld d (env w) (trace w1))
    else (Rejected (SqliteError "SQLITE_CANTOPEN"), w1).

(** [dbGet('SELECT id FROM waitlist WHERE email = ?', [email])] *)
Definition dbGet_id_by_email (e : jsstring) : M (option Z) :=
  on_db (SelectIdByEmail e)
    (fun d => (Resolved (option_map id (find (email_is e) (rows d))), d)).

(** [dbRun('INSERT INTO waitlist (...) VALUES (?, ...)', [...])]; the
    table declares [email TEXT UNIQUE NOT NULL] and the default
    [created_at = CURRENT_TIMESTAMP]. Resolves to [this.lastID]. *)
Definition dbRun_insert (now : Z) (nm em : jsstring) (ph : option jsstring)
    (co : jsstring) (pl : option jsstring) (ch : jsstring)
    (ip ua : option jsstring) : M Z :=
  on_db (InsertRow nm em ph co pl ch ip ua)
    (fun d =>
       if existsb (email_is em) (rows d)
       then (Rejected (SqliteError "SQLITE_CONSTRAINT: UNIQUE constraint failed: waitlist.email"), d)
       else
         let i := next_rowid d in
         (Resolved i,
          mkDb (available d)
               (rows d ++ [mkRow i nm em ph co pl ch now ip ua])
               i)).

(** [dbAll('SELECT * FROM waitlist ORDER BY created_at DESC')] *)
Definition dbAll_desc : M (list Row) :=
  on_db SelectAllDesc (fun d => (Resolved (sort_desc created_at (rows d)), d)).

(** [dbGet('SELECT COUNT( * ) as count FROM waitlist')] *)
Definition dbGet_count : M Z :=
  on_db SelectCount (fun d => (Resolved (Z.of_nat (List.length (rows d))), d)).

(** [SELECT plan, COUNT( * ) as count FROM waitlist
     WHERE plan IS NOT NULL GROUP BY plan] *)
Definition dbAll_plan_stats : M (list (jsstring * Z)) :=
  on_db SelectPlanStats
    (fun d => (Resolved (group_count (non_null_plans (rows d))), d)).

(** [SELECT COUNT( * ) as count FROM waitlist
     WHERE created_at >= datetime('now', '-7 days')]: one row. Both
    sides are timestamps in SQLite's text format, compared here as the
    seconds they denote. *)
Definition dbAll_recent (now : Z) : M (list Z) :=
  on_db SelectRecent
    (fun d =>
       (Resolved
          [Z.of_nat (List.length (filter (fun r => (now - seven_days <=? created_at r)%Z)
                                    (rows d)))], d)).

(** [SELECT company, COUNT( * ) as count FROM waitlist
     GROUP BY company ORDER BY count DESC LIMIT 5] *)
Definition dbAll_top_companies : M (list (jsstring * Z)) :=
  on_db SelectTopCompanies
    (fun d =>
       (Resolved (firstn 5 (sort_desc snd (group_count (map company (rows d))))), d)).

(* ------------------------------------------------------------------ *)
(** ** Responses *)

Inductive Json : Type :=
| JError (error : string)                    (* { error } *)
| JErrorMissing (error : string)             (* { error, missing: [] } *)
| JCreated (message : string) (new_id : Z)   (* { success: true, message, id } *)
| JCount (count : Z)
| JRows (rs : list Row)
| JStats (total : Z) (byPlan : list (jsstring * Z)) (recent7Days : Z)
    (topCompanies : list (jsstring * Z)) (timestamp : jsstring)
| JHealth (status_text : string) (timestamp : jsstring) (database : string)
| Csv (disposition : jsstring) (content : jsstring).

Record Response : Type := mkResponse {
  status : Z;
  payload : Json
}.

Definition msg_required : string :=
  "Name, email, company, and biggest challenge are required".
Definition msg_too_long : string := "Field lengths exceed maximum allowed".
Definition msg_invalid_email : string := "Invalid email format".
Definition msg_duplicate : string := "Email already registered".
Definition msg_joined : string := "Successfully joined waitlist".

(** The outcomes of the intake handler, by the name the design gives them. *)
Definition MissingField : Response := mkResponse 400 (JErrorMissing msg_required).
Definition FieldTooLong : Response := mkResponse 400 (JError msg_too_long).
Definition InvalidEmail : Response := mkResponse 400 (JError msg_invalid_email).
Definition DuplicateEmail : Response := mkResponse 409 (JError msg_duplicate).
Definition Created (i : Z) : Response := mkResponse 201 (JCreated msg_joined i).
Definition Unauthorized : Response := mkResponse 401 (JError "Unauthorized").

(* ------------------------------------------------------------------ *)
(** ** Text helpers of the handlers *)

Definition dq : jsstring := [34%N].      (* the double quote *)
Definition nl : jsstring := [10%N].
Definition lemon : jsstring := [55356%N; 57163%N].   (* U+1F34B *)
Definition check_mark : jsstring := [9989%N].        (* U+2705 *)
Definition pound : jsstring := [163%N].              (* U+00A3 *)

Definition or_default (a : option jsstring) (d : jsstring) : jsstring :=
  match or_else a (Some d) with
  | Some s => s
  | None => d
  end.

(** [a !== b] on values that are a string or [undefined]. *)
Definition strict_neq (a b : option jsstring) : bool :=
  match a, b with
  | None, None => false
  | Some x, Some y => negb (str_eqb x y)
  | _, _ => true
  end.

(** [s.split(c)[0]] *)
Fixpoint before_first (c : char16) (s : jsstring) : jsstring :=
  match s with
  | [] => []
  | x :: t => if (x =? c)%N then [] else x :: before_first c t
  end.

(** The [html] template of the confirmation message. *)
Definition confirmation_html (name company : jsstring) : jsstring :=
  List.concat
    [ nl;
      js "        <div style="; dq;
      js "font-family: Arial, sans-serif; max-width: 600px; margin: 0 auto;"; dq; js ">"; nl;
      js "          <h1 style="; dq; js "color: #FFD700;"; dq; js ">"; lemon;
      js " Welcome to the Waitlist!</h1>"; nl;
      js "          <p>Hi "; name; js ",</p>"; nl;
      js "          <p>Thanks for joining the Lemons Leads waitlist! You're now one of only 10 spots available.</p>"; nl;
      js "          "; nl;
      js "          <h2 style="; dq; js "color: #F4C2C2;"; dq; js ">What happens next?</h2>"; nl;
      js "          <ul>"; nl;
      js "            <li><strong>Within 24 hours:</strong> You'll receive your 50% discount code</li>"; nl;
      js "            <li><strong>This week:</strong> Free lead nurture template</li>"; nl;
      js "            <li><strong>Next week:</strong> Launch date announcement</li>"; nl;
      js "          </ul>"; nl;
      js "          "; nl;
      js "          <p><strong>Company:</strong> "; company; js "</p>"; nl;
      js "          <p><strong>Your spot:</strong> Reserved "; check_mark; js "</p>"; nl;
      js "          "; nl;
      js "          <p style="; dq;
      js "background: #FFD700; color: #F4C2C2; padding: 15px; border-radius: 8px; text-align: center;";
      dq; js ">"; nl;
      js "            <strong>You're saving "; pound; js "97/month when we launch!</strong>"; nl;
      js "          </p>"; nl;
      js "          "; nl;
      js "          <p>Questions? Reply to this email or contact alex@lemonsleads.co.uk</p>"; nl;
      js "          "; nl;
      js "          <p>Best regards,<br>Alex Townend<br>Lemons Leads</p>"; nl;
      js "        </div>"; nl;
      js "      " ].

Definition csvHeaders : list jsstring :=
  [ js "ID"; js "Name"; js "Email"; js "Phone"; js "Company"; js "Plan";
    js "Biggest Challenge"; js "Created At"; js "IP Address" ].

Definition quoted (s : jsstring) : jsstring := dq ++ s ++ dq.

(* ------------------------------------------------------------------ *)
(** ** The handlers *)

Section Handlers.

(** The mail transport: [None] when the message is accepted, the
    error when [sendMail] rejects. *)
Variable sendMail : MailOptions -> option jsstring.

(** SQLite's text of a timestamp and [Date.prototype.toISOString]. *)
Variable datetime_text : Z -> jsstring.
Variable toISOString : Z -> jsstring.

(** [await transporter.sendMail(mailOptions)] *)
Definition transporter_sendMail (m : MailOptions) : M unit :=
  emit (EvSendMail m) ;;;
  match sendMail m with
  | None => ret tt
  | Some e => throw (TransportError e)
  end.

(** [async function sendConfirmationEmail(name, email, company)] *)
Definition sendConfirmationEmail (name email company : jsstring) : M unit :=
  try_catch
    (e <- getenv ;;
     let mailOptions :=
       mkMail (or_default (EMAIL_USER e) (js "alex@lemonsleads.co.uk"))
              email
              (lemon ++ js " Welcome to the Lemons Leads Waitlist!")
              (confirmation_html name company) in
     transporter_sendMail mailOptions ;;;
     console_log (js "Confirmation email sent to " ++ email))
    (fun error => console_error "Email error:" error).

(** [app.post('/api/waitlist', ...)]; [now] is the time of the call. *)
Definition post_waitlist (req : Request) (now : Z) : M Response :=
  try_catch
    (let name := b_name (body req) in
     let email := b_email (body req) in
     let phone := b_phone (body req) in
     let company := b_company (body req) in
     let plan := b_plan (body req) in
     let biggest_challenge := b_biggest_challenge (body req) in
     let ip := or_else (req_ip req) (remoteAddress req) in
     let userAgent := user_agent_header req in
     if negb (truthy name) || negb (truthy email) || negb (truthy company)
        || negb (truthy biggest_challenge)
     then ret MissingField
     else
       match name, email, company, biggest_challenge with
       | Str name, Str email, Str company, Str biggest_challenge =>
           if (100 <? List.length name)%nat
              || (100 <? List.length email)%nat
              || and_length_gt phone 20
              || (100 <? List.length company)%nat
              || and_length_gt plan 50
              || (500 <? List.length biggest_challenge)%nat
           then ret FieldTooLong
           else if negb (validateEmail email)
           then ret InvalidEmail
           else
             let sanitizedName := sanitizeInput name in
             let sanitizedEmail := sanitizeInput email in
             let sanitizedPhone := sanitize_or_null phone in
             let sanitizedCompany := sanitizeInput company in
             let sanitizedPlan := sanitize_or_null plan in
             let sanitizedChallenge := sanitizeInput biggest_challenge in
             existingUser <- dbGet_id_by_email sanitizedEmail ;;
             match existingUser with
             | Some _ => ret DuplicateEmail
             | None =>
                 result <- dbRun_insert now sanitizedName sanitizedEmail
                             sanitizedPhone sanitizedCompany sanitizedPlan
                             sanitizedChallenge ip userAgent ;;
                 sendConfirmationEmail sanitizedName sanitizedEmail
                   sanitizedCompany ;;;
                 console_log
                   (js "New waitlist signup: " ++ sanitizedName ++ js " ("
                    ++ sanitizedEmail ++ js ") from " ++ sanitizedCompany) ;;;
                 ret (Created result)
             end
       | _, _, _, _ =>
           (* [.length] of a value that is not a string: unreachable,
              such values are falsy and were refused above *)
           throw (TypeError "Cannot read properties of undefined (reading 'length')")
       end)
    (fun error =>
       console_error "Server error:" error ;;;
       ret (mkResponse 500 (JError "Internal server error"))).

(** [app.get('/api/waitlist/count', ...)] *)
Definition get_waitlist_count : M Response :=
  try_catch
    (count <- dbGet_count ;;
     ret (mkResponse 200 (JCount count)))
    (fun error =>
       console_error "Database error:" error ;;;
       ret (mkResponse 500 (JError "Database error"))).

(** [app.get('/api/admin/waitlist', ...)] *)
Definition get_admin_waitlist (req : Request) : M Response :=
  e <- getenv ;;
  let adminKey := x_admin_key req in
  if strict_neq adminKey (ADMIN_KEY e)
  then ret Unauthorized
  else
    try_catch
      (rs <- dbAll_desc ;;
       ret (mkResponse 200 (JRows rs)))
      (fun error =>
         console_error "Database error:" error ;;;
         ret (mkResponse 500 (JError "Database error"))).

(** [app.get('/api/admin/stats', ...)] *)
Definition get_admin_stats (req : Request) (now : Z) : M Response :=
  e <- getenv ;;
  let adminKey := x_admin_key req in
  if strict_neq adminKey (ADMIN_KEY e)
  then ret Unauthorized
  else
    try_catch
      (totalCount <- dbGet_count ;;
       planStats <- dbAll_plan_stats ;;
       recentSubmissions <- dbAll_recent now ;;
       topCompanies <- dbAll_top_companies ;;
       match recentSubmissions with
       | recent :: _ =>
           ret (mkResponse 200
                  (JStats totalCount planStats recent topCompanies
                          (toISOString now)))
       | [] => throw (TypeError "Cannot read properties of undefined (reading 'count')")
       end)
      (fun error =>
         console_error "Stats error:" error ;;;
         ret (mkResponse 500 (JError "Database error"))).

(** One line of the export: [[row.id, `"${row.name}"`, ...].join(',')] *)
Definition csvRow (row : Row) : jsstring :=
  join (js ",")
    [ dec (id row);
      quoted (name row);
      quoted (email row);
      quoted (or_default (phone row) []);
      quoted (company row);
      quoted (or_default (plan row) []);
      quoted (biggest_challenge row);
      datetime_text (created_at row);
      or_default (ip_address row) [] ].

(** [[csvHeaders.join(','), ...csvRows].join('\n')] *)
Definition csvContent (rs : list Row) : jsstring :=
  join nl (join (js ",") csvHeaders :: map csvRow rs).

(** [app.get('/api/admin/export', ...)] *)
Definition get_admin_export (req : Request) (now : Z) : M Response :=
  e <- getenv ;;
  let adminKey := x_admin_key req in
  if strict_neq adminKey (ADMIN_KEY e)
  then ret Unauthorized
  else
    try_catch
      (rs <- dbAll_desc ;;
       ret (mkResponse 200
              (Csv (js "attachment; filename=" ++ dq ++ js "waitlist-"
                    ++ before_first 84%N (toISOString now) ++ js ".csv" ++ dq)
                   (csvContent rs))))
      (fun error =>
         console_error "Export error:" error ;;;
         ret (mkResponse 500 (JError "Database error"))).

(** [app.get('/api/health', ...)] *)
Definition get_health (now : Z) : M Response :=
  ret (mkResponse 200 (JHealth "healthy" (toISOString now) "connected")).

End Handlers.

(* ------------------------------------------------------------------ *)
(** ** The earlier handler

    [server.js] holds the intake handler as it was before phone, plan,
    the length check and sanitisation were added; it uses the node
    callbacks of sqlite3 directly and does not wait for the
    confirmation. Its health handler is the one above, word for word. *)

Module Legacy.

(** [email.includes('@')] *)
Definition includes_at (email : jsstring) : bool := existsb (N.eqb 64) email.

(** A node-style callback [(err, value) => ...] on a statement. *)
Definition with_callback {A B} (c : M A) (k : Err + A -> M B) : M B :=
  fun w =>
    match c w with
    | (Resolved a, w') => k (inr a) w'
    | (Rejected e, w') => k (inl e) w'
    end.

(** The literals of the message as [server.js] holds them: four code
    units where the later file has the lemon, three for its check mark
    and two for its pound sign. *)
Definition lemon : jsstring := [63743%N; 252%N; 231%N; 227%N].
Definition check_mark : jsstring := [8218%N; 250%N; 214%N].
Definition pound : jsstring := [172%N; 163%N].

(** The [html] template of [server.js]. *)
Definition confirmation_html (name company : jsstring) : jsstring :=
  List.concat
    [ nl;
      js "        <div style="; dq;
      js "font-family: Arial, sans-serif; max-width: 600px; margin: 0 auto;"; dq; js ">"; nl;
      js "          <h1 style="; dq; js "color: #FFD700;"; dq; js ">"; lemon;
      js " Welcome to the Waitlist!</h1>"; nl;
      js "          <p>Hi "; name; js ",</p>"; nl;
      js "          <p>Thanks for joining the Lemons Leads waitlist! You're now one of only 10 spots available.</p>"; nl;
      js "          "; nl;
      js "          <h2 style="; dq; js "color: #F4C2C2;"; dq; js ">What happens next?</h2>"; nl;
      js "          <ul>"; nl;
      js "            <li><strong>Within 24 hours:</strong> You'll receive your 50% discount code</li>"; nl;
      js "            <li><strong>This week:</strong> Free lead nurture template</li>"; nl;
      js "            <li><strong>Next week:</strong> Launch date announcement</li>"; nl;
      js "          </ul>"; nl;
      js "          "; nl;
      js "          <p><strong>Company:</strong> "; company; js "</p>"; nl;
      js "          <p><strong>Your spot:</strong> Reserved "; check_mark; js "</p>"; nl;
      js "          "; nl;
      js "          <p style="; dq;
      js "background: #FFD700; color: #F4C2C2; padding: 15px; border-radius: 8px; text-align: center;";
      dq; js ">"; nl;
      js "            <strong>You're saving "; pound; js "97/month when we launch!</strong>"; nl;
      js "          </p>"; nl;
      js "          "; nl;
      js "          <p>Questions? Reply to this email or contact alex@lemonsleads.co.uk</p>"; nl;
      js "          "; nl;
      js "          <p>Best regards,<br>Alex Townend<br>Lemons Leads</p>"; nl;
      js "        </div>"; nl;
      js "      " ].

(** The [mailOptions] object of [sendConfirmationEmail]. *)
Definition mailOptions (e : Env) (name email company : jsstring) : MailOptions :=
  mkMail (or_default (EMAIL_USER e) (js "alex@lemonsleads.co.uk"))
         email
         (lemon ++ js " Welcome to the Lemons Leads Waitlist!")
         (confirmation_html name company).

Section Handler.

Variable sendMail : MailOptions -> option jsstring.

(** [sendConfirmationEmail(name, email, company)] up to its [await]:
    the message is built and handed to the transport, and the caller
    goes on with the promise left pending. *)
Definition sendConfirmationEmail_called (name email company : jsstring)
    : M MailOptions :=
  e <- getenv ;;
  let m := mailOptions e name email company in
  emit (EvSendMail m) ;;;
  ret m.

(** The rest of [sendConfirmationEmail], run once the transport has
    settled: the log line, or the [catch] block. *)
Definition sendConfirmationEmail_settled (m : MailOptions) (email : jsstring)
    : M unit :=
  match sendMail m with
  | None => console_log (js "Confirmation email sent to " ++ email)
  | Some err => console_error "Email error:" (TransportError err)
  end.

(** [app.post('/api/waitlist', ...)] of server.js. The handler logs the
    signup and answers while the confirmation is pending; the
    confirmation settles after the callback has returned. The result
    of the computation is the answer sent, the trace keeps the order
    of the effects. *)
Definition post_waitlist (req : Request) (now : Z) : M Response :=
  try_catch
    (let name := b_name (body req) in
     let email := b_email (body req) in
     let company := b_company (body req) in
     let biggest_challenge := b_biggest_challenge (body req) in
     let ip := or_else (req_ip req) (remoteAddress req) in
     let userAgent := user_agent_header req in
     if negb (truthy name) || negb (truthy email) || negb (truthy company)
        || negb (truthy biggest_challenge)
     then ret (mkResponse 400 (JError "All fields are required"))
     else
       match name, email, company, biggest_challenge with
       | Str name, Str email, Str company, Str biggest_challenge =>
           if negb (includes_at email)
           then ret InvalidEmail
           else
             with_callback (dbGet_id_by_email email)
               (fun r =>
                  match r with
                  | inl err =>
                      console_error "Database error:" err ;;;
                      ret (mkResponse 500 (JError "Database error"))
                  | inr (Some _) => ret DuplicateEmail
                  | inr None =>
                      with_callback
                        (dbRun_insert now name email None company None
                                    biggest_challenge ip userAgent)
                        (fun r' =>
                           match r' with
                           | inl err =>
                               console_error "Insert error:" err ;;;
                               ret (mkResponse 500 (JError "Failed to save submission"))
                           | inr lastID =>
                               pending <- sendConfirmationEmail_called name email company ;;
                               console_log
                                 (js "New waitlist signup: " ++ name ++ js " ("
                                  ++ email ++ js ") from " ++ company) ;;;
                               sendConfirmationEmail_settled pending email ;;;
                               ret (Created lastID)
                           end)
                  end)
       | _, _, _, _ =>
           throw (TypeError "Cannot read properties of undefined (reading 'includes')")
       end)
    (fun error =>
       console_error "Server error:" error ;;;
       ret (mkResponse 500 (JError "Internal server error"))).

End Handler.

End Legacy.

(* ------------------------------------------------------------------ *)
(** * Vocabulary of the statements *)

(** The shape of an accepted email. *)
Definition at_sign : char16 := 64%N.
Definition dot : char16 := 46%N.

(** The shape in words: exactly one [@], no whitespace, something
    before the [@], and after it a [.] with something on both sides. *)
Definition email_shape (s : jsstring) : Prop :=
  count_occ N.eq_dec s at_sign = 1%nat
  /\ forallb (fun c => negb (is_space c)) s = true
  /\ exists local domain,
       s = local ++ at_sign :: domain
       /\ local <> []
       /\ exists a b, domain = a ++ dot :: b /\ a <> [] /\ b <> [].

(** The checks of the handler as predicates on the submitted body. *)
Definition required_present (b : Body) : bool :=
  truthy (b_name b) && truthy (b_email b) && truthy (b_company b)
  && truthy (b_biggest_challenge b).

(** A field is a text of more than [n] code units. *)
Definition length_gt (v : jsval) (n : nat) : bool :=
  match v with
  | Str s => (n <? List.length s)%nat
  | _ => false
  end.

Definition exceeds_maximum (b : Body) : bool :=
  length_gt (b_name b) 100 || length_gt (b_email b) 100
  || length_gt (b_phone b) 20 || length_gt (b_company b) 100
  || length_gt (b_plan b) 50 || length_gt (b_biggest_challenge b) 500.

Definition text (v : jsval) : jsstring :=
  match v with
  | Str s => s
  | _ => []
  end.

Definition email_accepted (b : Body) : bool :=
  match b_email b with
  | Str e => validateEmail e
  | _ => false
  end.

Definition passes_validation (b : Body) : bool :=
  required_present b && negb (exceeds_maximum b) && email_accepted b.

Definition sanitized_email (b : Body) : jsstring := sanitizeInput (text (b_email b)).

(** The row an accepted submission is stored as. *)
Definition row_of (i : Z) (req : Request) (now : Z) : Row :=
  mkRow i
        (sanitizeInput (text (b_name (body req))))
        (sanitized_email (body req))
        (sanitize_or_null (b_phone (body req)))
        (sanitizeInput (text (b_company (body req))))
        (sanitize_or_null (b_plan (body req)))
        (sanitizeInput (text (b_biggest_challenge (body req))))
        now
        (or_else (req_ip req) (remoteAddress req))
        (user_agent_header req).

(** The handler once the three checks have passed. *)
Definition store_phase (sendMail : MailOptions -> option jsstring)
    (req : Request) (now : Z) : M Response :=
  let r := row_of 0 req now in
  try_catch
    (existingUser <- dbGet_id_by_email (email r) ;;
     match existingUser with
     | Some _ => ret DuplicateEmail
     | None =>
         result <- dbRun_insert now (name r) (email r) (phone r) (company r)
                     (plan r) (biggest_challenge r) (ip_address r)
                     (user_agent r) ;;
         sendConfirmationEmail sendMail (name r) (email r) (company r) ;;;
         console_log
           (js "New waitlist signup: " ++ name r ++ js " ("
            ++ email r ++ js ") from " ++ company r) ;;;
         ret (Created result)
     end)
    (fun error =>
       console_error "Server error:" error ;;;
       ret (mkResponse 500 (JError "Internal server error"))).

(** The message [sendConfirmationEmail] hands to the transport. *)
Definition confirmation_mail (e : Env) (r : Row) : MailOptions :=
  mkMail (or_default (EMAIL_USER e) (js "alex@lemonsleads.co.uk"))
         (email r)
         (lemon ++ js " Welcome to the Lemons Leads Waitlist!")
         (confirmation_html (name r) (company r)).

(** What the dispatch of a confirmation leaves in the trace. *)
Definition mail_events (sendMail : MailOptions -> option jsstring)
    (e : Env) (r : Row) : list Event :=
  [ match sendMail (confirmation_mail e r) with
    | None => EvLog (js "Confirmation email sent to " ++ email r)
    | Some err => EvError "Email error:" (TransportError err)
    end;
    EvSendMail (confirmation_mail e r) ].

(** The message the handler of server.js hands to the transport. *)
Definition legacy_mail (e : Env) (r : Row) : MailOptions :=
  Legacy.mailOptions e (name r) (email r) (company r).

(** What that handler leaves in the trace once the row is stored: the
    message handed over, the log line of the signup, and the outcome
    of the confirmation last. *)
Definition legacy_events (sendMail : MailOptions -> option jsstring)
    (e : Env) (r : Row) : list Event :=
  [ match sendMail (legacy_mail e r) with
    | None => EvLog (js "Confirmation email sent to " ++ email r)
    | Some err => EvError "Email error:" (TransportError err)
    end;
    EvLog (js "New waitlist signup: " ++ name r ++ js " ("
           ++ email r ++ js ") from " ++ company r);
    EvSendMail (legacy_mail e r) ].

Definition insert_query (r : Row) : Query :=
  InsertRow (name r) (email r) (phone r) (company r) (plan r)
            (biggest_challenge r) (ip_address r) (user_agent r).

(** A field that is missing in the sense of the handler's guard. *)
Definition absent_or_empty (v : jsval) : Prop :=
  v = Undefined \/ v = Null \/ v = Str [].

(** A field that is missing once trimmed. *)
Definition absent_or_blank (v : jsval) : Prop :=
  v = Undefined \/ v = Null \/ exists s, v = Str s /\ trim s = [].

(** [a] may come before [b] in a listing by descending [key]. *)
Definition desc (A : Type) (key : A -> Z) (a b : A) : Prop := (key b <= key a)%Z.

(** A row of the given plan (a row without plan has none). *)
Definition has_plan (p : jsstring) (r : Row) : bool :=
  match plan r with
  | Some q => str_eqb q p
  | None => false
  end.

Definition from_company (c : jsstring) (r : Row) : bool := str_eqb (company r) c.

(** Created at or after seven days before [now]. *)
Definition recent (now : Z) (r : Row) : bool :=
  (now - 7 * 24 * 60 * 60 <=? created_at r)%Z.

Definition count_rows (f : Row -> bool) (rs : list Row) : Z :=
  Z.of_nat (List.length (filter f rs)).

(** The header of the export, as one line. *)
Definition header_line : jsstring :=
  js "ID,Name,Email,Phone,Company,Plan,Biggest Challenge,Created At,IP Address".








(** The largest integer a JavaScript number holds exactly,
    [Number.MAX_SAFE_INTEGER]; [this.lastID] and the [id] of a row read
    from the store are such numbers. *)
Definition MAX_SAFE_INTEGER : Z := 9007199254740991%Z.






(* ------------------------------------------------------------------ *)
(** ** Sample data *)

Module Samples.

Definition transport_up : MailOptions -> option jsstring := fun _ => None.
Definition transport_down : MailOptions -> option jsstring :=
  fun _ => Some (js "ECONNREFUSED").

(** A server with a configured admin key and an empty table. *)
Definition fresh_world : World :=
  mkWorld (mkDb true [] 0) (mkEnv (Some (js "s3cret")) None) [].

(** The same server when the database file could not be opened. *)
Definition broken_world : World :=
  mkWorld (mkDb false [] 0) (mkEnv (Some (js "s3cret")) None) [].

(** A server started without ADMIN_KEY in its environment. *)
Definition keyless_world (rs : list Row) : World :=
  mkWorld (mkDb true rs 0) (mkEnv None None) [].

Definition form (nm em co ch : jsval) (pl : jsval) : Request :=
  mkRequest (mkBody nm em Undefined co pl ch)
            (Some (js "203.0.113.7")) None (Some (js "curl/8")) None.

Definition alice : Request :=
  form (Str (js "Alice")) (Str (js "a@b.co")) (Str (js "Acme"))
       (Str (js "follow-up")) Undefined.

(** Another submission whose email sanitises to the same address. *)
Definition alice_again : Request :=
  form (Str (js "Al")) (Str (js "a@b.co<>")) (Str (js "Acme Ltd"))
       (Str (js "leads")) (Str (js "pro")).


Definition blank_name : Request :=
  form (Str (js "   ")) (Str (js "a@b.co")) (Str (js "Acme"))
       (Str (js "follow-up")) Undefined.

Definition no_name : Request :=
  form Undefined (Str (js "a@b.co")) (Str (js "Acme"))
       (Str (js "follow-up")) Undefined.

Definition long_text (n : nat) : jsstring := repeat 120%N n.

(** No name and an email of 101 code units. *)
Definition no_name_long_email : Request :=
  form Undefined (Str (long_text 101)) (Str (js "Acme"))
       (Str (js "follow-up")) Undefined.

Definition long_name : Request :=
  form (Str (long_text 101)) (Str (js "a@b.co")) (Str (js "Acme"))
       (Str (js "follow-up")) Undefined.

Definition bad_email : Request :=
  form (Str (js "Alice")) (Str (js "not-an-email")) (Str (js "Acme"))
       (Str (js "follow-up")) Undefined.

(** An email with an [@] and no dot after it. *)
Definition no_dot_email : Request :=
  form (Str (js "Alice")) (Str (js "a@b")) (Str (js "Acme"))
       (Str (js "follow-up")) Undefined.

(** An email of 101 code units without [@]. *)
Definition long_bad_email : Request :=
  form (Str (js "Alice")) (Str (long_text 101)) (Str (js "Acme"))
       (Str (js "follow-up")) Undefined.

Definition tagged_name : Request :=
  form (Str (js "<b>Al</b>")) (Str (js "a@b.co")) (Str (js "Acme"))
       (Str (js "follow-up")) Undefined.

Definition lead (i : Z) (em co : string) (pl : option string) (t : Z) : Row :=
  mkRow i (js "n") (js em) None (js co) (option_map js pl) (js "c") t None None.

Definition five_leads : list Row :=
  [ lead 1 "a@x.io" "Acme" (Some "pro"%string) 10;
    lead 2 "b@x.io" "Acme" (Some "basic"%string) 20;
    lead 3 "c@x.io" "Bolt" (Some "pro"%string) 30;
    lead 4 "d@x.io" "Acme" (Some "pro"%string) 40;
    lead 5 "e@x.io" "Core" (Some "basic"%string) 50 ].

Definition admin_request (key : option jsstring) : Request :=
  mkRequest (mkBody Undefined Undefined Undefined Undefined Undefined Undefined)
            None None None key.

Definition stocked_world : World :=
  mkWorld (mkDb true five_leads 5) (mkEnv (Some (js "s3cret")) None) [].

Definition seconds_text (t : Z) : jsstring := dec t.

Definition signup (em pl : string) : Request :=
  form (Str (js "Sam")) (Str (js em)) (Str (js "Acme")) (Str (js "leads"))
       (Str (js pl)).

(** Three signups on the pro plan and two on the basic plan. *)
Definition five_signups : list Request :=
  [ signup "p1@x.io" "pro"; signup "b1@x.io" "basic"; signup "p2@x.io" "pro";
    signup "b2@x.io" "basic"; signup "p3@x.io" "pro" ].

Definition after_signups (reqs : list Request) : World :=
  fold_left (fun w r => snd (post_waitlist transport_up r 1000 w)) reqs fresh_world.

End Samples.

(* ------------------------------------------------------------------ *)
(** * The routes, the payment handlers and what is said about them *)

(** ** The routes of the API

    [app.post('/api/waitlist')], [app.get('/api/waitlist/count')],
    [app.get('/api/admin/...')] and [app.get('/api/health')]. *)

Inductive Call : Type :=
| PostWaitlist (req : Request) (now : Z)
| GetWaitlistCount
| GetAdminWaitlist (req : Request)
| GetAdminStats (req : Request) (now : Z)
| GetAdminExport (req : Request) (now : Z)
| GetHealth (now : Z).

Section Server.

Variable sendMail : MailOptions -> option jsstring.
Variable datetime_text : Z -> jsstring.
Variable toISOString : Z -> jsstring.

Definition serve (c : Call) : M Response :=
  match c with
  | PostWaitlist req now => post_waitlist sendMail req now
  | GetWaitlistCount => get_waitlist_count
  | GetAdminWaitlist req => get_admin_waitlist req
  | GetAdminStats req now => get_admin_stats toISOString req now
  | GetAdminExport req now => get_admin_export datetime_text toISOString req now
  | GetHealth now => get_health toISOString now
  end.

(** The world after a series of calls, served one after the other. *)
Fixpoint serve_all (cs : list Call) (w : World) : World :=
  match cs with
  | [] => w
  | c :: cs' => serve_all cs' (snd (serve c w))
  end.

End Server.

(** ** Payments

    The three Stripe routes. The SDK is a value of [Stripe]: what
    [stripe.checkout.sessions.create] and
    [stripe.webhooks.constructEvent] return, or the message of the error
    they throw. A body holds an absent or numeric [quantity] and an
    absent or flat [metadata]. *)

Module Payments.

Record Session : Type := mkSession {
  session_id : jsstring;
  session_url : jsstring
}.

Record LineItem : Type := mkLineItem {
  price : jsstring;
  item_quantity : Z
}.

Record SessionParams : Type := mkSessionParams {
  payment_method_types : list jsstring;
  line_items : list LineItem;
  mode : jsstring;
  success_url : jsstring;
  cancel_url : jsstring;
  session_metadata : list (jsstring * jsstring)
}.

(** [event.type] and [event.data.object.id] *)
Record StripeEvent : Type := mkStripeEvent {
  event_type : jsstring;
  object_id : jsstring
}.

(** [req.body] as the webhook route finds it. [bodyParser.json()] is
    installed for every route and has run before the route's own
    [express.raw], which then leaves the request alone: the handler
    holds the object parsed from the text that was sent, not that
    text. *)
Inductive ParsedBody : Type :=
| ParsedFrom (sent : jsstring).

Record Stripe : Type := mkStripe {
  sessions_create : SessionParams -> jsstring + Session;
  constructEvent : ParsedBody -> option jsstring -> option jsstring
                   -> jsstring + StripeEvent
}.

Record ProcessEnv : Type := mkProcessEnv {
  STRIPE_SECRET_KEY : option jsstring;
  STRIPE_PUBLISHABLE_KEY : option jsstring;
  STRIPE_WEBHOOK_SECRET : option jsstring
}.

Record PayBody : Type := mkPayBody {
  priceId : jsval;
  quantity : option Z;
  metadata : option (list (jsstring * jsstring))
}.

Record PayRequest : Type := mkPayRequest {
  pay_body : PayBody;
  webhook_body : ParsedBody;               (* req.body of the webhook *)
  protocol : jsstring;                     (* req.protocol *)
  host : option jsstring;                  (* req.get('host') *)
  stripe_signature : option jsstring       (* req.headers['stripe-signature'] *)
}.

Inductive PayJson : Type :=
| PError (error : string)                          (* { error } *)
| PFailed (error : string) (details : jsstring)    (* { error, details } *)
| PLink (sessionId url : jsstring)                 (* { success: true, sessionId, url } *)
| PReceived                                        (* { received: true } *)
| PText (message : jsstring)                       (* res.send(text) *)
| PKey (publishableKey : option jsstring).         (* { publishableKey } *)

Record PayResponse : Type := mkPayResponse {
  pay_status : Z;
  pay_payload : PayJson
}.

(** What a payment handler does besides answering, most recent first. *)
Inductive PayEvent : Type :=
| StripeCreate (p : SessionParams)
| StripeVerify (body : ParsedBody) (sig secret : option jsstring)
| PayLog (msg : jsstring)
| PayError (prefix : string) (msg : jsstring).

(** The process once the module is loaded: the Stripe client, if any,
    and the environment the handlers read. *)
Record Server : Type := mkServer {
  stripe : option Stripe;
  penv : ProcessEnv
}.

(** A value in a template literal: [undefined] prints as its name. *)
Definition in_template (o : option jsstring) : jsstring :=
  match o with
  | Some s => s
  | None => js "undefined"
  end.

(** [require('dotenv').config()]: a variable of the file is set unless
    the process already has it. *)
Definition dotenv_config (file env : ProcessEnv) : ProcessEnv :=
  let pick (a b : option jsstring) :=
    match a with Some v => Some v | None => b end in
  mkProcessEnv
    (pick (STRIPE_SECRET_KEY env) (STRIPE_SECRET_KEY file))
    (pick (STRIPE_PUBLISHABLE_KEY env) (STRIPE_PUBLISHABLE_KEY file))
    (pick (STRIPE_WEBHOOK_SECRET env) (STRIPE_WEBHOOK_SECRET file)).

Section Startup.

(** [require('stripe')(key)] *)
Variable connect : jsstring -> Stripe.

(** The first lines of the module, in their order:
    [const stripe = process.env.STRIPE_SECRET_KEY ? require('stripe')(...) : null;]
    and then [require('dotenv').config();]. *)
Definition startup (env file : ProcessEnv) : Server :=
  let stripe :=
    match STRIPE_SECRET_KEY env with
    | Some (c :: k) => Some (connect (c :: k))
    | _ => None
    end in
  mkServer stripe (dotenv_config file env).

End Startup.

Definition not_configured : PayResponse :=
  mkPayResponse 503 (PError "Stripe not configured").

(** [app.post('/api/create-payment-link', ...)] *)
Definition create_payment_link (srv : Server) (req : PayRequest)
  : PayResponse * list PayEvent :=
  match stripe srv with
  | None => (not_configured, [])
  | Some sdk =>
      let priceId := priceId (pay_body req) in
      let quantity := match quantity (pay_body req) with Some q => q | None => 1%Z end in
      let metadata := match metadata (pay_body req) with Some m => m | None => [] end in
      if negb (truthy priceId)
      then (mkPayResponse 400 (PError "Price ID is required"), [])
      else
        let params :=
          mkSessionParams
            [js "card"]
            [mkLineItem (text priceId) quantity]
            (js "subscription")
            (protocol req ++ js "://" ++ in_template (host req)
             ++ js "/success.html?session_id={CHECKOUT_SESSION_ID}")
            (protocol req ++ js "://" ++ in_template (host req) ++ js "/cancel.html")
            metadata in
        match sessions_create sdk params with
        | inr session =>
            (mkPayResponse 200 (PLink (session_id session) (session_url session)),
             [StripeCreate params])
        | inl message =>
            (mkPayResponse 500 (PFailed "Failed to create payment link" message),
             [PayError "Stripe error:" message; StripeCreate params])
        end
  end.

(** [app.post('/api/stripe-webhook', ...)] *)
Definition stripe_webhook (srv : Server) (req : PayRequest)
  : PayResponse * list PayEvent :=
  match stripe srv with
  | None => (not_configured, [])
  | Some sdk =>
      let sig := stripe_signature req in
      let secret := STRIPE_WEBHOOK_SECRET (penv srv) in
      let verify := StripeVerify (webhook_body req) sig secret in
      match constructEvent sdk (webhook_body req) sig secret with
      | inl message =>
          (mkPayResponse 400 (PText (js "Webhook Error: " ++ message)),
           [PayError "Webhook signature verification failed:" message; verify])
      | inr event =>
          let line :=
            if str_eqb (event_type event) (js "checkout.session.completed")
            then js "Payment successful: " ++ object_id event
            else if str_eqb (event_type event) (js "customer.subscription.created")
            then js "Subscription created: " ++ object_id event
            else if str_eqb (event_type event) (js "customer.subscription.updated")
            then js "Subscription updated: " ++ object_id event
            else js "Unhandled event type: " ++ event_type event in
          (mkPayResponse 200 PReceived, [PayLog line; verify])
      end
  end.

(** [app.get('/api/stripe-key', ...)] *)
Definition stripe_key (srv : Server) : PayResponse :=
  mkPayResponse 200 (PKey (STRIPE_PUBLISHABLE_KEY (penv srv))).

End Payments.

(** ** What the further statements speak of *)

Definition opt_length (o : option jsstring) : nat :=
  match o with
  | Some s => List.length s
  | None => 0%nat
  end.

(** A row whose texts are within the maxima of the length check. *)
Definition within_limits (r : Row) : Prop :=
  (List.length (name r) <= 100 /\ List.length (email r) <= 100
   /\ opt_length (phone r) <= 20 /\ List.length (company r) <= 100
   /\ opt_length (plan r) <= 50 /\ List.length (biggest_challenge r) <= 500)%nat.

(** A text without [<] and [>]. *)
Definition markup_free (s : jsstring) : Prop :=
  forall c, In c s -> c <> 60%N /\ c <> 62%N.

Definition opt_markup_free (o : option jsstring) : Prop :=
  match o with
  | Some s => markup_free s
  | None => True
  end.

Definition row_markup_free (r : Row) : Prop :=
  markup_free (name r) /\ markup_free (email r) /\ opt_markup_free (phone r)
  /\ markup_free (company r) /\ opt_markup_free (plan r)
  /\ markup_free (biggest_challenge r).

(** Rows whose ids grow along the table. *)
Definition ids_ascending (rs : list Row) : Prop :=
  StronglySorted (fun a b => (id a < id b)%Z) rs.

(** The messages handed to the mail transport so far, latest first. *)
Definition mails (w : World) : list MailOptions :=
  flat_map (fun e => match e with EvSendMail m => [m] | _ => [] end) (trace w).

(** The queries sent to the database so far, latest first. *)
Definition queries (w : World) : list Query :=
  flat_map (fun e => match e with EvSql q => [q] | _ => [] end) (trace w).

Definition is_created (o : Outcome Response) : bool :=
  match o with
  | Resolved r => (status r =? 201)%Z
  | Rejected _ => false
  end.


(** The number of line feeds of a text. *)
Definition line_feeds (s : jsstring) : nat := count_occ N.eq_dec s 10%N.

(** A row whose texts, as the export prints them, hold no line feed. *)
Definition single_line (datetime_text : Z -> jsstring) (r : Row) : Prop :=
  line_feeds (name r) = 0%nat /\ line_feeds (email r) = 0%nat
  /\ line_feeds (or_default (phone r) []) = 0%nat
  /\ line_feeds (company r) = 0%nat
  /\ line_feeds (or_default (plan r) []) = 0%nat
  /\ line_feeds (biggest_challenge r) = 0%nat
  /\ line_feeds (datetime_text (created_at r)) = 0%nat
  /\ line_feeds (or_default (ip_address r) []) = 0%nat.

(** The row the handler of server.js stores: the texts as submitted. *)
Definition raw_row (i : Z) (req : Request) (now : Z) : Row :=
  mkRow i
        (text (b_name (body req)))
        (text (b_email (body req)))
        None
        (text (b_company (body req)))
        None
        (text (b_biggest_challenge (body req)))
        now
        (or_else (req_ip req) (remoteAddress req))
        (user_agent_header req).

(** The answer of the intake handler when something was thrown. *)
Definition server_error : Response :=
  mkResponse 500 (JError "Internal server error").

(** The answer of the other handlers when the database fails. *)
Definition database_error : Response :=
  mkResponse 500 (JError "Database error").

(* ------------------------------------------------------------------ *)
(** * Properties *)

Example validateEmail_ok : validateEmail (js "a@b.co") = true.
Proof. reflexivity. Qed.

Example validateEmail_ko : validateEmail (js "not-an-email") = false.
Proof. reflexivity. Qed.

Example sanitize_bAl : sanitizeInput (js "<b>Al</b>") = js "bAl/b".
Proof. reflexivity. Qed.

Example dec_42 : dec 42 = js "42".
Proof. reflexivity. Qed.

(** ** The matcher decides the language of a pattern *)

Module RegexFacts.
Import Regex.

Lemma class_inv p w : lang (Class p) w -> exists c, w = [c] /\ p c = true.
Proof. intro H; inversion H; subst; eauto. Qed.

Lemma cat_inv r1 r2 w :
  lang (Cat r1 r2) w -> exists u v, w = u ++ v /\ lang r1 u /\ lang r2 v.
Proof. intro H; inversion H; subst; eauto. Qed.

Lemma alt_inv r1 r2 w : lang (Alt r1 r2) w -> lang r1 w \/ lang r2 w.
Proof. intro H; inversion H; subst; auto. Qed.

Lemma lang_cat_cons r1 r2 c u v :
  lang r1 (c :: u) -> lang r2 v -> lang (Cat r1 r2) (c :: u ++ v).
Proof. intros; change (c :: u ++ v) with ((c :: u) ++ v); constructor; auto. Qed.

Lemma nullable_sound r : nullable r = true -> lang r [].
Proof.
  induction r; simpl; intro H; try discriminate.
  - constructor.
  - apply andb_true_iff in H as [H1 H2].
    change (@nil char16) with (@nil char16 ++ []). constructor; auto.
  - apply orb_true_iff in H as [H | H].
    + apply L_alt_l; auto.
    + apply L_alt_r; auto.
  - constructor.
Qed.

Lemma nullable_complete r s : lang r s -> s = [] -> nullable r = true.
Proof.
  induction 1; simpl; intro E; auto; try discriminate.
  - apply app_eq_nil in E as [-> ->]. rewrite IHlang1, IHlang2; auto.
  - rewrite IHlang; auto.
  - rewrite IHlang; auto. apply orb_true_r.
Qed.

Lemma nullable_lang r : nullable r = true <-> lang r [].
Proof.
  split; [apply nullable_sound | intro H; eapply nullable_complete; eauto].
Qed.

(** A non-empty word of [r*] starts with a non-empty word of [r]. *)
Lemma star_cons_inv r w :
  lang (Star r) w -> forall c s, w = c :: s ->
  exists u v, s = u ++ v /\ lang r (c :: u) /\ lang (Star r) v.
Proof.
  intro H. remember (Star r) as q eqn:Eq.
  induction H; try discriminate; intros c s E.
  injection Eq as ->. destruct u as [| x u'].
  - simpl in E. apply (IHlang2 eq_refl c s E).
  - simpl in E. injection E as -> <-. exists u', v. auto.
Qed.

Lemma deriv_sound c r : forall s, lang (deriv c r) s -> lang r (c :: s).
Proof.
  induction r; simpl; intros s H.
  - inversion H.
  - inversion H.
  - destruct (p c) eqn:Ep; inversion H; subst. constructor; auto.
  - destruct (nullable r1) eqn:En.
    + apply alt_inv in H as [H | H].
      * apply cat_inv in H as (u & v & -> & Hu & Hv).
        apply lang_cat_cons; auto.
      * change (c :: s) with ([] ++ c :: s). constructor; auto.
        apply nullable_sound; auto.
    + apply cat_inv in H as (u & v & -> & Hu & Hv).
      apply lang_cat_cons; auto.
  - apply alt_inv in H as [H | H]; [apply L_alt_l | apply L_alt_r]; auto.
  - apply cat_inv in H as (u & v & -> & Hu & Hv).
    change (c :: u ++ v) with ((c :: u) ++ v). constructor; auto.
Qed.

Lemma deriv_complete c r : forall s, lang r (c :: s) -> lang (deriv c r) s.
Proof.
  induction r; simpl; intros s H.
  - inversion H.
  - inversion H.
  - apply class_inv in H as (x & E & Hp). injection E as -> ->.
    rewrite Hp. constructor.
  - apply cat_inv in H as (u & v & E & Hu & Hv). destruct u as [| x u'].
    + simpl in E. subst v.
      rewrite (nullable_complete Hu eq_refl). apply L_alt_r; auto.
    + simpl in E. injection E as <- ->.
      assert (Hc : lang (Cat (deriv c r1) r2) (u' ++ v)) by (constructor; auto).
      destruct (nullable r1); [apply L_alt_l |]; auto.
  - apply alt_inv in H as [H | H]; [apply L_alt_l | apply L_alt_r]; auto.
  - destruct (star_cons_inv H eq_refl) as (u & v & -> & Hu & Hv).
    constructor; auto.
Qed.

Theorem test_lang r : forall s, test r s = true <-> lang r s.
Proof.
  intro s. revert r. induction s as [| c s IH]; intro r; simpl.
  - apply nullable_lang.
  - rewrite IH. split; [apply deriv_sound | apply deriv_complete].
Qed.

(** Words of a repeated character class. *)
Lemma star_class p u : lang (Star (Class p)) u <-> forallb p u = true.
Proof.
  split.
  - intro H. remember (Star (Class p)) as q eqn:Eq.
    induction H; try discriminate; auto.
    injection Eq as ->. rewrite forallb_app, (IHlang2 eq_refl).
    apply class_inv in H as (x & -> & Hp). simpl. rewrite Hp. reflexivity.
  - induction u as [| c u IH]; simpl; intro H.
    + constructor.
    + apply andb_true_iff in H as [Hc Hu].
      change (c :: u) with ([c] ++ u). constructor; auto. constructor; auto.
Qed.

Lemma plus_class p u :
  lang (Plus (Class p)) u <-> u <> [] /\ forallb p u = true.
Proof.
  unfold Plus. split.
  - intro H. apply cat_inv in H as (a & b & -> & Ha & Hb).
    apply class_inv in Ha as (x & -> & Hp). apply star_class in Hb.
    simpl. rewrite Hp, Hb. split; [discriminate | reflexivity].
  - intros [Hne Hall]. destruct u as [| c u]; [congruence |].
    simpl in Hall. apply andb_true_iff in Hall as [Hc Hu].
    change (c :: u) with ([c] ++ u). constructor.
    + constructor; auto.
    + apply star_class; auto.
Qed.

End RegexFacts.

(* ------------------------------------------------------------------ *)
(** ** Trimming and sanitisation *)

Lemma trimStart_split s :
  exists pre, s = pre ++ trimStart s /\ forallb is_space pre = true.
Proof.
  induction s as [| c s (pre & E & Hpre)]; simpl.
  - exists []. auto.
  - destruct (is_space c) eqn:Hc.
    + exists (c :: pre). simpl. rewrite Hc, Hpre. split; [congruence | reflexivity].
    + exists []. auto.
Qed.

Lemma trimStart_head s c r : trimStart s = c :: r -> is_space c = false.
Proof.
  induction s as [| x s IH]; simpl; [discriminate |].
  destruct (is_space x) eqn:Hx; auto.
  intro E. injection E as -> _. exact Hx.
Qed.

Lemma trimStart_fixed s :
  (forall c r, s = c :: r -> is_space c = false) -> trimStart s = s.
Proof.
  destruct s as [| c r]; simpl; auto.
  intro H. rewrite (H c r eq_refl). reflexivity.
Qed.

Lemma forallb_rev (A : Type) (p : A -> bool) l :
  forallb p (rev l) = forallb p l.
Proof.
  induction l as [| x l IH]; simpl; auto.
  rewrite forallb_app, IH. simpl. rewrite andb_true_r. apply andb_comm.
Qed.

(** What [trim] removes and what it leaves. *)
Lemma trim_split s :
  exists pre suf,
    s = pre ++ trim s ++ suf
    /\ forallb is_space pre = true
    /\ forallb is_space suf = true
    /\ (forall c r, trim s = c :: r -> is_space c = false)
    /\ (forall r c, trim s = r ++ [c] -> is_space c = false).
Proof.
  destruct (trimStart_split s) as (pre & Es & Hpre).
  destruct (trimStart_split (rev (trimStart s))) as (q & Eq & Hq).
  assert (Et : trimStart s = trim s ++ rev q).
  { unfold trim, trimEnd. rewrite <- rev_app_distr, <- Eq, rev_involutive. reflexivity. }
  exists pre, (rev q). repeat split.
  - rewrite <- Et. exact Es.
  - exact Hpre.
  - rewrite forallb_rev. exact Hq.
  - intros c r E. rewrite E in Et. simpl in Et.
    eapply trimStart_head; eauto.
  - intros r c E. unfold trim, trimEnd in E.
    apply (f_equal (@rev _)) in E. rewrite rev_involutive, rev_app_distr in E.
    simpl in E. eapply trimStart_head; eauto.
Qed.

Lemma strip_angles_In s c : In c (strip_angles s) <-> In c s /\ is_angle c = false.
Proof.
  unfold strip_angles. rewrite filter_In, negb_true_iff. reflexivity.
Qed.

Lemma strip_angles_none s :
  forallb (fun c => negb (is_angle c)) s = true -> strip_angles s = s.
Proof.
  unfold strip_angles. induction s as [| c s IH]; simpl; auto.
  intro H. apply andb_true_iff in H as [Hc Hs]. rewrite Hc, IH; auto.
Qed.

Lemma strip_angles_app a b : strip_angles (a ++ b) = strip_angles a ++ strip_angles b.
Proof. apply filter_app. Qed.

(* ------------------------------------------------------------------ *)
(** ** The shape of an accepted email *)

Lemma not_space_or_at_iff c :
  not_space_or_at c = true <-> is_space c = false /\ c <> at_sign.
Proof.
  unfold not_space_or_at, at_sign. rewrite negb_true_iff, orb_false_iff, N.eqb_neq.
  reflexivity.
Qed.

Lemma atoms_no_at u :
  forallb not_space_or_at u = true -> count_occ N.eq_dec u at_sign = 0%nat.
Proof.
  induction u as [| c u IH]; simpl; auto.
  intro H. apply andb_true_iff in H as [Hc Hu].
  apply not_space_or_at_iff in Hc as [_ Hc].
  destruct (N.eq_dec c at_sign); [contradiction | auto].
Qed.

Lemma atoms_no_space u :
  forallb not_space_or_at u = true -> forallb (fun c => negb (is_space c)) u = true.
Proof.
  induction u as [| c u IH]; simpl; auto.
  intro H. apply andb_true_iff in H as [Hc Hu].
  apply not_space_or_at_iff in Hc as [Hc _]. rewrite Hc, IH; auto.
Qed.

Lemma atoms_intro u :
  forallb (fun c => negb (is_space c)) u = true ->
  count_occ N.eq_dec u at_sign = 0%nat ->
  forallb not_space_or_at u = true.
Proof.
  induction u as [| c u IH]; simpl; auto.
  intros H Hn. apply andb_true_iff in H as [Hc Hu].
  destruct (N.eq_dec c at_sign) as [E | E]; [discriminate |].
  rewrite IH; auto. rewrite andb_true_r.
  apply not_space_or_at_iff. split; auto. apply negb_true_iff; auto.
Qed.

Lemma validateEmail_shape s : validateEmail s = true <-> email_shape s.
Proof.
  unfold validateEmail, emailRegex. rewrite RegexFacts.test_lang. split.
  - intro H.
    apply RegexFacts.cat_inv in H as (l & r1 & -> & Hl & H).
    apply RegexFacts.cat_inv in H as (x & r2 & -> & Hx & H).
    apply RegexFacts.cat_inv in H as (a & r3 & -> & Ha & H).
    apply RegexFacts.cat_inv in H as (y & b & -> & Hy & Hb).
    apply RegexFacts.class_inv in Hx as (cx & -> & Hcx). apply N.eqb_eq in Hcx. subst cx.
    apply RegexFacts.class_inv in Hy as (cy & -> & Hcy). apply N.eqb_eq in Hcy. subst cy.
    apply RegexFacts.plus_class in Hl as [Hl0 Hl].
    apply RegexFacts.plus_class in Ha as [Ha0 Ha].
    apply RegexFacts.plus_class in Hb as [Hb0 Hb].
    unfold email_shape. repeat split.
    + rewrite !count_occ_app. simpl.
      rewrite (atoms_no_at _ Hl), (atoms_no_at _ Ha), (atoms_no_at _ Hb). reflexivity.
    + rewrite !forallb_app. simpl.
      rewrite (atoms_no_space _ Hl), (atoms_no_space _ Ha), (atoms_no_space _ Hb).
      reflexivity.
    + exists l, (a ++ [dot] ++ b). repeat split; auto.
      exists a, b. auto.
  - intros (Hcount & Hsp & l & d & -> & Hl0 & a & b & -> & Ha0 & Hb0).
    rewrite !count_occ_app in Hcount. simpl in Hcount.
    rewrite !count_occ_app in Hcount. simpl in Hcount.
    rewrite !forallb_app in Hsp. simpl in Hsp. rewrite !forallb_app in Hsp. simpl in Hsp.
    apply andb_true_iff in Hsp as [Hl Hsp].
    apply andb_true_iff in Hsp as [Ha Hb].
    assert (Nl : count_occ N.eq_dec l at_sign = 0%nat) by lia.
    assert (Na : count_occ N.eq_dec a at_sign = 0%nat) by lia.
    assert (Nb : count_occ N.eq_dec b at_sign = 0%nat) by lia.
    constructor; [apply RegexFacts.plus_class; split; auto using atoms_intro |].
    change (at_sign :: a ++ dot :: b) with ([at_sign] ++ a ++ [dot] ++ b).
    constructor; [constructor; reflexivity |].
    constructor; [apply RegexFacts.plus_class; split; auto using atoms_intro |].
    constructor; [constructor; reflexivity |].
    apply RegexFacts.plus_class; split; auto using atoms_intro.
Qed.


Example includes_at_weaker :
  Legacy.includes_at (js "a@b") = true /\ validateEmail (js "a@b") = false.
Proof. split; reflexivity. Qed.

(* ------------------------------------------------------------------ *)
(** ** The intake handler, check by check *)

Section Intake.

Variable sendMail : MailOptions -> option jsstring.

Lemma and_length_gt_eq v n : and_length_gt v n = length_gt v n.
Proof.
  destruct v as [| | [| c s]]; simpl; auto.
Qed.

Local Opaque validateEmail sanitizeInput confirmation_html Nat.ltb js.

(** The handler is its three checks, in this order, then the store. *)
Lemma post_waitlist_checks req now w :
  post_waitlist sendMail req now w =
    if negb (required_present (body req)) then (Resolved MissingField, w)
    else if exceeds_maximum (body req) then (Resolved FieldTooLong, w)
    else if negb (email_accepted (body req)) then (Resolved InvalidEmail, w)
    else store_phase sendMail req now w.
Proof.
  destruct req as [[n e p c pl ch] ip ra ua key].
  unfold post_waitlist, store_phase, row_of, sanitized_email, required_present,
    exceeds_maximum, email_accepted, try_catch.
  cbn [body b_name b_email b_phone b_company b_plan b_biggest_challenge
       req_ip remoteAddress user_agent_header
       name email phone company plan biggest_challenge ip_address user_agent].
  rewrite !and_length_gt_eq.
  destruct n as [| | [| n0 n]]; try reflexivity;
  destruct e as [| | [| e0 e]]; try reflexivity;
  destruct c as [| | [| c0 c]]; try reflexivity;
  destruct ch as [| | [| ch0 ch]]; try reflexivity.
  cbn [truthy negb orb andb text length_gt].
  match goal with |- context [if ?C then ret FieldTooLong else _] =>
    destruct C; [reflexivity |] end.
  destruct (validateEmail (e0 :: e)); reflexivity.
Qed.

End Intake.

Lemma find_existsb (A : Type) (f : A -> bool) l :
  existsb f l = match find f l with Some _ => true | None => false end.
Proof.
  induction l as [| x l IH]; simpl; auto.
  destruct (f x); auto.
Qed.

Section StorePhase.

Variable sendMail : MailOptions -> option jsstring.

Local Opaque sanitizeInput confirmation_html js.

Lemma sendConfirmationEmail_run nm em co w :
  sendConfirmationEmail sendMail nm em co w =
    (Resolved tt,
     mkWorld (db w) (env w)
       (mail_events sendMail (env w)
          (mkRow 0 nm em None co None [] 0 None None) ++ trace w)).
Proof.
  unfold sendConfirmationEmail, try_catch, bind, getenv, transporter_sendMail,
    emit, console_log, console_error, mail_events, confirmation_mail.
  cbn [db env trace name email company fst snd].
  destruct (sendMail _); reflexivity.
Qed.

Lemma store_phase_unavailable req now w :
  available (db w) = false ->
  store_phase sendMail req now w =
    (Resolved (mkResponse 500 (JError "Internal server error")),
     mkWorld (db w) (env w)
       (EvError "Server error:" (SqliteError "SQLITE_CANTOPEN")
        :: EvSql (SelectIdByEmail (sanitized_email (body req))) :: trace w)).
Proof.
  intro Hav.
  unfold store_phase, try_catch, bind, dbGet_id_by_email, on_db.
  rewrite Hav. reflexivity.
Qed.

Lemma store_phase_duplicate req now w :
  available (db w) = true ->
  existsb (email_is (sanitized_email (body req))) (rows (db w)) = true ->
  store_phase sendMail req now w =
    (Resolved DuplicateEmail,
     mkWorld (db w) (env w)
       (EvSql (SelectIdByEmail (sanitized_email (body req))) :: trace w)).
Proof.
  intros Hav Hex. rewrite find_existsb in Hex.
  unfold store_phase, try_catch, bind, dbGet_id_by_email, on_db.
  rewrite Hav. cbn [row_of email fst snd db env trace].
  destruct (find _ _); [reflexivity | discriminate].
Qed.

Lemma store_phase_fresh req now w :
  available (db w) = true ->
  existsb (email_is (sanitized_email (body req))) (rows (db w)) = false ->
  let i := next_rowid (db w) in
  let r := row_of i req now in
  store_phase sendMail req now w =
    (Resolved (Created i),
     mkWorld (mkDb true (rows (db w) ++ [r]) i) (env w)
       (EvLog (js "New waitlist signup: " ++ name r ++ js " ("
               ++ email r ++ js ") from " ++ company r)
        :: mail_events sendMail (env w) r
        ++ EvSql (insert_query r)
        :: EvSql (SelectIdByEmail (email r)) :: trace w)).
Proof.
  intros Hav Hex i r. pose proof Hex as Hfind. rewrite find_existsb in Hfind.
  unfold store_phase, try_catch.
  unfold bind at 1. unfold dbGet_id_by_email, on_db at 1.
  rewrite Hav. cbn [row_of email fst snd db env trace].
  destruct (find _ _); [discriminate |]. cbn [option_map].
  unfold bind at 1. unfold dbRun_insert, on_db.
  cbn [db env trace name email phone company plan biggest_challenge
       ip_address user_agent].
  rewrite Hav. fold (sanitized_email (body req)). rewrite Hex.
  unfold bind at 1. rewrite sendConfirmationEmail_run.
  unfold bind, console_log, emit, ret.
  cbn [db env trace]. reflexivity.
Qed.

End StorePhase.

(* ------------------------------------------------------------------ *)
(** ** Required fields *)

Lemma truthy_false_iff v : truthy v = false <-> absent_or_empty v.
Proof.
  unfold absent_or_empty. destruct v as [| | [| c s]]; simpl; split; auto;
    try discriminate.
  intros [H | [H | H]]; discriminate.
Qed.

Lemma required_present_false b :
  required_present b = false <->
  absent_or_empty (b_name b) \/ absent_or_empty (b_email b)
  \/ absent_or_empty (b_company b) \/ absent_or_empty (b_biggest_challenge b).
Proof.
  unfold required_present. rewrite !andb_false_iff, !truthy_false_iff. tauto.
Qed.

(** C2, as amended: a submission in which [name], [email], [company] or
    [biggest_challenge] is absent, [null] or the empty string is answered
    with MissingField (400); the world is left as it was, so the store is
    neither read nor written. *)
Theorem missing_field_rejected sendMail req now w :
  absent_or_empty (b_name (body req)) \/ absent_or_empty (b_email (body req))
  \/ absent_or_empty (b_company (body req))
  \/ absent_or_empty (b_biggest_challenge (body req)) ->
  post_waitlist sendMail req now w = (Resolved MissingField, w)
  /\ status MissingField = 400%Z.
Proof.
  intro H. apply required_present_false in H.
  rewrite post_waitlist_checks, H. split; reflexivity.
Qed.

Lemma missing_field_rejected_witness :
  absent_or_empty (b_name (body Samples.no_name))
  /\ post_waitlist Samples.transport_up Samples.no_name 1000 Samples.broken_world
     = (Resolved MissingField, Samples.broken_world).
Proof.
  split.
  - left. reflexivity.
  - apply (missing_field_rejected Samples.transport_up Samples.no_name 1000
             Samples.broken_world).
    left. left. reflexivity.
Defined.

(** C2 as stated fails: a name of three spaces is empty after trimming,
    yet the submission is accepted (201) and stored with the empty name. *)
Lemma blank_name_accepted :
  absent_or_blank (b_name (body Samples.blank_name))
  /\ fst (post_waitlist Samples.transport_up Samples.blank_name 1000
            Samples.fresh_world)
     = Resolved (Created 1)
  /\ map name (rows (db (snd (post_waitlist Samples.transport_up
                                 Samples.blank_name 1000 Samples.fresh_world))))
     = [ [] ].
Proof.
  split; [| split].
  - right. right. exists (js "   "). split; reflexivity.
  - vm_compute. reflexivity.
  - vm_compute. reflexivity.
Qed.

(* ------------------------------------------------------------------ *)
(** ** Accepted submissions *)

Lemma passes_validation_iff b :
  passes_validation b = true <->
  required_present b = true /\ exceeds_maximum b = false /\ email_accepted b = true.
Proof.
  unfold passes_validation. rewrite !andb_true_iff, negb_true_iff. tauto.
Qed.

Section Accepted.

Variable sendMail : MailOptions -> option jsstring.

Lemma post_waitlist_valid req now w :
  passes_validation (body req) = true ->
  post_waitlist sendMail req now w = store_phase sendMail req now w.
Proof.
  intro H. apply passes_validation_iff in H as (Hr & Hl & He).
  rewrite post_waitlist_checks, Hr, Hl, He. reflexivity.
Qed.

(** A 201 is only ever the answer to a valid submission with a new
    email on an open database, and then the world is known. *)
Lemma post_waitlist_created_inv req now w i w' :
  post_waitlist sendMail req now w = (Resolved (Created i), w') ->
  passes_validation (body req) = true
  /\ available (db w) = true
  /\ existsb (email_is (sanitized_email (body req))) (rows (db w)) = false
  /\ i = next_rowid (db w)
  /\ db w' = mkDb true (rows (db w) ++ [row_of i req now]) i
  /\ env w' = env w.
Proof.
  rewrite post_waitlist_checks. unfold passes_validation.
  destruct (required_present (body req)); cbn [negb]; [| discriminate].
  destruct (exceeds_maximum (body req)); cbn [negb]; [discriminate |].
  destruct (email_accepted (body req)); cbn [negb]; [| discriminate].
  destruct (available (db w)) eqn:Hav.
  - destruct (existsb (email_is (sanitized_email (body req))) (rows (db w))) eqn:Hex.
    + rewrite store_phase_duplicate by assumption. discriminate.
    + rewrite store_phase_fresh by assumption.
      intro E. injection E as Ei Ew. subst i w'. cbn [db env]. auto 10.
  - rewrite store_phase_unavailable by assumption. discriminate.
Qed.

End Accepted.

Lemma max_id_bound rs r : In r rs -> (id r <= max_id rs)%Z.
Proof.
  induction rs as [| x rs IH]; simpl; [tauto |].
  intros [-> | H]; [lia |]. specialize (IH H). lia.
Qed.



Lemma email_is_refl e r : email r = e -> email_is e r = true.
Proof.
  unfold email_is, str_eqb. intros ->. destruct (jsstring_eq_dec e e); congruence.
Qed.




(* ------------------------------------------------------------------ *)
(** ** Field lengths *)

(** C5, as amended: a submission in which a field is longer than its
    maximum (name 100, email 100, phone 20, company 100, plan 50,
    biggest_challenge 500) is answered 400 and the world is left as it
    was: with FieldTooLong when the four required fields are present,
    with MissingField otherwise, as that check comes first. *)
Theorem field_too_long_rejected sendMail req now w :
  exceeds_maximum (body req) = true ->
  post_waitlist sendMail req now w =
    (Resolved (if required_present (body req) then FieldTooLong else MissingField), w)
  /\ status FieldTooLong = 400%Z
  /\ status MissingField = 400%Z.
Proof.
  intro H. rewrite post_waitlist_checks, H.
  destruct (required_present (body req)); repeat split; reflexivity.
Qed.

(** A name of 101 code units, everything else in order. *)
Lemma field_too_long_rejected_witness :
  exceeds_maximum (body Samples.long_name) = true
  /\ post_waitlist Samples.transport_up Samples.long_name 1000 Samples.fresh_world
     = (Resolved FieldTooLong, Samples.fresh_world).
Proof.
  split.
  - vm_compute. reflexivity.
  - apply (field_too_long_rejected Samples.transport_up Samples.long_name 1000
             Samples.fresh_world).
    vm_compute. reflexivity.
Defined.

(** C5 as stated fails: with no name and an email of 101 code units the
    answer is the MissingField one, not FieldTooLong. *)
Lemma too_long_but_missing_field :
  exceeds_maximum (body Samples.no_name_long_email) = true
  /\ post_waitlist Samples.transport_up Samples.no_name_long_email 1000
       Samples.fresh_world
     = (Resolved MissingField, Samples.fresh_world)
  /\ MissingField <> FieldTooLong.
Proof.
  split; [| split].
  - vm_compute. reflexivity.
  - vm_compute. reflexivity.
  - discriminate.
Qed.

(* ------------------------------------------------------------------ *)
(** ** The email check *)

Lemma legacy_invalid_email sendMail req now w :
  required_present (body req) = true ->
  Legacy.includes_at (text (b_email (body req))) = false ->
  Legacy.post_waitlist sendMail req now w = (Resolved InvalidEmail, w).
Proof.
  destruct req as [[n e p c pl ch] ip ra ua key].
  unfold required_present, Legacy.post_waitlist, try_catch.
  cbn [body b_name b_email b_company b_biggest_challenge text].
  destruct n as [| | [| n0 n]]; try discriminate;
  destruct e as [| | [| e0 e]]; try discriminate;
  destruct c as [| | [| c0 c]]; try discriminate;
  destruct ch as [| | [| ch0 ch]]; try discriminate.
  intros _ H. cbn [text] in H. cbn [truthy negb orb]. rewrite H. reflexivity.
Qed.

(** C4, as amended: [validateEmail] accepts exactly the strings with one
    [@], no whitespace, a non-empty local part and, after the [@], a [.]
    with non-empty text on both sides; it refuses not-an-email and
    accepts a@b.co. In the handler that calls it, a submission whose
    email is refused is answered 400 and the world is left as it was:
    with MissingField when a required field is missing, else with
    FieldTooLong when a field is too long, else with InvalidEmail. The
    handler of server.js answers InvalidEmail, the world left as it was,
    when the four fields are present and the email holds no [@]. *)
Theorem email_shape_checked :
  (forall s, validateEmail s = true <-> email_shape s)
  /\ validateEmail (js "not-an-email") = false
  /\ validateEmail (js "a@b.co") = true
  /\ (forall sendMail req now w,
        email_accepted (body req) = false ->
        post_waitlist sendMail req now w
        = (Resolved (if negb (required_present (body req)) then MissingField
                     else if exceeds_maximum (body req) then FieldTooLong
                     else InvalidEmail), w)
        /\ status MissingField = 400%Z
        /\ status FieldTooLong = 400%Z
        /\ status InvalidEmail = 400%Z)
  /\ (forall sendMail req now w,
        required_present (body req) = true ->
        Legacy.includes_at (text (b_email (body req))) = false ->
        Legacy.post_waitlist sendMail req now w = (Resolved InvalidEmail, w)
        /\ status InvalidEmail = 400%Z).
Proof.
  split; [exact validateEmail_shape |].
  split; [reflexivity |]. split; [reflexivity |]. split.
  - intros sendMail req now w H. rewrite post_waitlist_checks, H.
    split; [| repeat split].
    destruct (required_present (body req)); cbn [negb]; [| reflexivity].
    destruct (exceeds_maximum (body req)); reflexivity.
  - intros sendMail req now w Hr Hat. split; [| reflexivity].
    apply legacy_invalid_email; assumption.
Qed.

Lemma email_shape_checked_witness :
  email_accepted (body Samples.bad_email) = false
  /\ post_waitlist Samples.transport_up Samples.bad_email 1000 Samples.fresh_world
     = (Resolved InvalidEmail, Samples.fresh_world)
  /\ Legacy.post_waitlist Samples.transport_up Samples.bad_email 1000
       Samples.fresh_world
     = (Resolved InvalidEmail, Samples.fresh_world).
Proof.
  split; [reflexivity |]. split.
  - apply (proj1 (proj2 (proj2 (proj2 email_shape_checked))) Samples.transport_up
             Samples.bad_email 1000%Z Samples.fresh_world eq_refl).
  - apply (proj2 (proj2 (proj2 (proj2 email_shape_checked))) Samples.transport_up
             Samples.bad_email 1000%Z Samples.fresh_world eq_refl eq_refl).
Defined.

(** C4 as stated fails in its last part. In the handler that calls
    [validateEmail], an email of 101 code units without [@] is refused
    by the check and the answer is FieldTooLong, not InvalidEmail. In
    the handler of server.js, a@b is refused by the check as described,
    and the submission is answered 201 and stored. *)
Lemma refused_email_other_answer :
  email_accepted (body Samples.long_bad_email) = false
  /\ post_waitlist Samples.transport_up Samples.long_bad_email 1000
       Samples.fresh_world
     = (Resolved FieldTooLong, Samples.fresh_world)
  /\ FieldTooLong <> InvalidEmail
  /\ email_accepted (body Samples.no_dot_email) = false
  /\ fst (Legacy.post_waitlist Samples.transport_up Samples.no_dot_email 1000
            Samples.fresh_world)
     = Resolved (Created 1)
  /\ map email
       (rows (db (snd (Legacy.post_waitlist Samples.transport_up
                         Samples.no_dot_email 1000 Samples.fresh_world))))
     = [js "a@b"].
Proof.
  split; [vm_compute; reflexivity |].
  split; [vm_compute; reflexivity |].
  split; [discriminate |].
  split; [vm_compute; reflexivity |].
  split; vm_compute; reflexivity.
Qed.

(* ------------------------------------------------------------------ *)
(** ** Sanitisation of what is stored *)

Lemma sanitize_or_null_eq v :
  sanitize_or_null v = if truthy v then Some (sanitizeInput (text v)) else None.
Proof.
  destruct v as [| | [| c s]]; reflexivity.
Qed.

(** C6: [sanitizeInput] drops the whitespace at both ends of its input
    and then every [<] and [>], keeping all other characters in place;
    every text field of a stored submission went through it; and the
    name <b>Al</b> is stored as bAl/b. *)
Theorem sanitization_applied :
  (forall s,
     exists pre core suf,
       s = pre ++ core ++ suf
       /\ forallb is_space pre = true
       /\ forallb is_space suf = true
       /\ (forall c r, core = c :: r -> is_space c = false)
       /\ (forall r c, core = r ++ [c] -> is_space c = false)
       /\ sanitizeInput s
          = filter (fun c => negb ((c =? 60) || (c =? 62))%N) core)
  /\ (forall sendMail req now w i w',
        post_waitlist sendMail req now w = (Resolved (Created i), w') ->
        exists r,
          rows (db w') = rows (db w) ++ [r]
          /\ id r = i
          /\ name r = sanitizeInput (text (b_name (body req)))
          /\ email r = sanitizeInput (text (b_email (body req)))
          /\ phone r = (if truthy (b_phone (body req))
                        then Some (sanitizeInput (text (b_phone (body req))))
                        else None)
          /\ company r = sanitizeInput (text (b_company (body req)))
          /\ plan r = (if truthy (b_plan (body req))
                       then Some (sanitizeInput (text (b_plan (body req))))
                       else None)
          /\ biggest_challenge r
             = sanitizeInput (text (b_biggest_challenge (body req))))
  /\ sanitizeInput (js "<b>Al</b>") = js "bAl/b"
  /\ map name
       (rows (db (snd (post_waitlist Samples.transport_up Samples.tagged_name
                         1000 Samples.fresh_world))))
     = [js "bAl/b"].
Proof.
  split; [| split; [| split]].
  - intro s. destruct (trim_split s) as (pre & suf & E & Hpre & Hsuf & Hhd & Hlast).
    exists pre, (trim s), suf. repeat split; auto.
  - intros sendMail req now w i w' H.
    apply post_waitlist_created_inv in H as (_ & _ & _ & _ & Hdb & _).
    exists (row_of i req now). rewrite Hdb. cbn [rows row_of id name email phone
      company plan biggest_challenge]. rewrite !sanitize_or_null_eq.
    repeat split.
  - reflexivity.
  - vm_compute. reflexivity.
Qed.

Lemma sanitization_applied_witness :
  exists r,
    rows (db (snd (post_waitlist Samples.transport_up Samples.alice_again 1000
                     Samples.fresh_world)))
    = rows (db Samples.fresh_world) ++ [r]
    /\ email r = js "a@b.co".
Proof.
  destruct (proj1 (proj2 sanitization_applied) Samples.transport_up
              Samples.alice_again 1000%Z Samples.fresh_world 1%Z
              (snd (post_waitlist Samples.transport_up Samples.alice_again 1000
                      Samples.fresh_world)))
    as (r & Hrows & _ & _ & Hemail & _).
  - vm_compute. reflexivity.
  - exists r. split; [exact Hrows |]. rewrite Hemail. vm_compute. reflexivity.
Defined.

(* ------------------------------------------------------------------ *)
(** ** The confirmation message cannot change the answer *)

(** C9: for a submission that passes validation and is inserted, the
    answer is 201 with the id of the new row whatever the transport
    does; when the transport rejects, the error is caught inside
    [sendConfirmationEmail] and logged under "Email error:", and the
    answer and the table are those of a delivery that worked. *)
Theorem notification_failure_swallowed sendMail req now w :
  passes_validation (body req) = true ->
  available (db w) = true ->
  existsb (email_is (sanitized_email (body req))) (rows (db w)) = false ->
  let i := next_rowid (db w) in
  let out := post_waitlist sendMail req now w in
  fst out = Resolved (Created i)
  /\ status (Created i) = 201%Z
  /\ rows (db (snd out)) = rows (db w) ++ [row_of i req now]
  /\ (forall err,
        sendMail (confirmation_mail (env w) (row_of i req now)) = Some err ->
        In (EvError "Email error:" (TransportError err)) (trace (snd out)))
  /\ (forall otherTransport,
        fst (post_waitlist otherTransport req now w) = fst out
        /\ db (snd (post_waitlist otherTransport req now w)) = db (snd out)).
Proof.
  intros V Hav Hfresh i out. unfold out.
  rewrite post_waitlist_valid by assumption.
  rewrite (store_phase_fresh sendMail req now w Hav Hfresh). cbv zeta.
  fold i. cbn [fst snd db rows trace]. repeat split.
  - intros err Herr. right. unfold mail_events. rewrite Herr. left. reflexivity.
  - rewrite post_waitlist_valid by assumption.
    rewrite (store_phase_fresh otherTransport req now w Hav Hfresh). reflexivity.
  - rewrite post_waitlist_valid by assumption.
    rewrite (store_phase_fresh otherTransport req now w Hav Hfresh). reflexivity.
Qed.

Lemma notification_failure_swallowed_witness :
  fst (post_waitlist Samples.transport_down Samples.alice 1000 Samples.fresh_world)
  = Resolved (Created 1)
  /\ In (EvError "Email error:" (TransportError (js "ECONNREFUSED")))
        (trace (snd (post_waitlist Samples.transport_down Samples.alice 1000
                       Samples.fresh_world))).
Proof.
  destruct (notification_failure_swallowed Samples.transport_down Samples.alice
              1000 Samples.fresh_world eq_refl eq_refl eq_refl)
    as (Hresp & _ & _ & Hlog & _).
  split; [exact Hresp | apply Hlog; reflexivity].
Defined.

(* ------------------------------------------------------------------ *)
(** ** Ordering and grouping *)

Section SortDescFacts.
Variable A : Type.
Variable key : A -> Z.

Lemma insert_desc_perm x l : Permutation (x :: l) (insert_desc key x l).
Proof.
  induction l as [| y t IH]; simpl; auto.
  destruct (key y <=? key x)%Z; auto.
  rewrite perm_swap. constructor. exact IH.
Qed.

Lemma sort_desc_perm l : Permutation l (sort_desc key l).
Proof.
  induction l as [| x l IH]; simpl; auto.
  rewrite <- insert_desc_perm. constructor. exact IH.
Qed.

Lemma insert_desc_sorted x l :
  StronglySorted (desc key) l -> StronglySorted (desc key) (insert_desc key x l).
Proof.
  induction 1 as [| y t Ht IH Hy]; simpl.
  - repeat constructor.
  - destruct (key y <=? key x)%Z eqn:Hc.
    + apply Z.leb_le in Hc. constructor; [constructor; auto |].
      constructor; [exact Hc |].
      eapply Forall_impl; [| exact Hy]. unfold desc. intros; lia.
    + apply Z.leb_gt in Hc. constructor; [exact IH |].
      eapply Permutation_Forall; [apply insert_desc_perm |].
      constructor; [unfold desc; lia | exact Hy].
Qed.

Lemma sort_desc_sorted l : StronglySorted (desc key) (sort_desc key l).
Proof.
  induction l as [| x l IH]; simpl; [constructor | apply insert_desc_sorted; exact IH].
Qed.

Lemma sorted_app_inv (l1 l2 : list A) :
  StronglySorted (desc key) (l1 ++ l2) ->
  StronglySorted (desc key) l1 /\ forall a b, In a l1 -> In b l2 -> desc key a b.
Proof.
  induction l1 as [| x l1 IH]; simpl; intro H.
  - split; [constructor | tauto].
  - inversion H as [| ? ? Hs Hx]; subst.
    destruct (IH Hs) as [Hs1 Hcross]. apply Forall_app in Hx as [Hx1 Hx2].
    split; [constructor; auto |].
    intros a b [-> | Ha] Hb; [| auto].
    rewrite Forall_forall in Hx2. auto.
Qed.

(** The first [n] of a descending listing dominate everything else. *)
Lemma firstn_sort_desc n l :
  let top := firstn n (sort_desc key l) in
  StronglySorted (desc key) top
  /\ (forall a, In a top -> In a l)
  /\ (forall a b, In a top -> In b l -> ~ In b top -> desc key a b)
  /\ List.length top = Nat.min n (List.length l).
Proof.
  intro top. pose proof (sort_desc_sorted l) as Hs.
  rewrite <- (firstn_skipn n (sort_desc key l)) in Hs. fold top in Hs.
  apply sorted_app_inv in Hs as [Htop Hcross].
  split; [exact Htop |]. split; [| split].
  - intros a Ha. apply (Permutation_in a (Permutation_sym (sort_desc_perm l))).
    rewrite <- (firstn_skipn n (sort_desc key l)). apply in_or_app. left. exact Ha.
  - intros a b Ha Hb Hnb. apply Hcross; [exact Ha |].
    apply (Permutation_in b (sort_desc_perm l)) in Hb.
    rewrite <- (firstn_skipn n (sort_desc key l)) in Hb.
    apply in_app_or in Hb as [Hb | Hb]; [contradiction | exact Hb].
  - unfold top. rewrite length_firstn.
    rewrite (Permutation_length (sort_desc_perm l)). reflexivity.
Qed.

End SortDescFacts.

Lemma group_count_In keys k c :
  In (k, c) (group_count keys) <->
  In k keys /\ c = Z.of_nat (count_occ jsstring_eq_dec keys k).
Proof.
  unfold group_count. rewrite in_map_iff. split.
  - intros (x & E & Hx). injection E as -> <-. apply nodup_In in Hx. auto.
  - intros [Hk ->]. exists k. split; [reflexivity | apply nodup_In; exact Hk].
Qed.

Lemma group_count_keys keys : map fst (group_count keys) = nodup jsstring_eq_dec keys.
Proof.
  unfold group_count. rewrite map_map. simpl. apply map_id.
Qed.

Lemma group_count_NoDup keys : NoDup (map fst (group_count keys)).
Proof. rewrite group_count_keys. apply NoDup_nodup. Qed.

Lemma NoDup_map_fst_sub (A B : Type) (l l' : list (A * B)) :
  NoDup (map fst l) -> Permutation l (l') -> NoDup (map fst l').
Proof.
  intros H P. eapply Permutation_NoDup; [| exact H].
  apply Permutation_map. exact P.
Qed.

Lemma NoDup_firstn (A : Type) n (l : list A) : NoDup l -> NoDup (firstn n l).
Proof.
  intro H. rewrite <- (firstn_skipn n l) in H. apply NoDup_app_remove_r in H. exact H.
Qed.

Lemma count_plans rs p :
  Z.of_nat (count_occ jsstring_eq_dec (non_null_plans rs) p) = count_rows (has_plan p) rs.
Proof.
  unfold count_rows. f_equal.
  induction rs as [| r rs IH]; simpl; auto.
  unfold has_plan at 1. destruct (plan r) as [q |]; simpl; auto.
  unfold str_eqb. destruct (jsstring_eq_dec q p); simpl; congruence.
Qed.

Lemma count_companies rs c :
  Z.of_nat (count_occ jsstring_eq_dec (map company rs) c) = count_rows (from_company c) rs.
Proof.
  unfold count_rows. f_equal.
  induction rs as [| r rs IH]; simpl; auto.
  unfold from_company at 1, str_eqb.
  destruct (jsstring_eq_dec (company r) c); simpl; congruence.
Qed.

Lemma count_rows_pos f rs : (0 < count_rows f rs)%Z <-> exists r, In r rs /\ f r = true.
Proof.
  unfold count_rows. split.
  - intro H. destruct (filter f rs) as [| r l] eqn:E; [simpl in H; lia |].
    exists r. apply filter_In. rewrite E. left. reflexivity.
  - intros (r & Hr). apply filter_In in Hr.
    destruct (filter f rs); [contradiction | simpl; lia].
Qed.

Lemma in_plans rs p : In p (non_null_plans rs) <-> exists r, In r rs /\ has_plan p r = true.
Proof.
  unfold non_null_plans. rewrite in_flat_map. split.
  - intros (r & Hr & Hp). exists r. split; [exact Hr |].
    unfold has_plan. destruct (plan r) as [q |]; [| contradiction].
    destruct Hp as [-> | []]. unfold str_eqb. destruct (jsstring_eq_dec p p); congruence.
  - intros (r & Hr & Hp). exists r. split; [exact Hr |].
    unfold has_plan, str_eqb in Hp. destruct (plan r) as [q |]; [| discriminate].
    destruct (jsstring_eq_dec q p); [left; assumption | discriminate].
Qed.

Lemma in_companies rs c :
  In c (map company rs) <-> exists r, In r rs /\ from_company c r = true.
Proof.
  rewrite in_map_iff. unfold from_company, str_eqb. split.
  - intros (r & E & Hr). exists r. split; [exact Hr |].
    destruct (jsstring_eq_dec (company r) c); congruence.
  - intros (r & Hr & Hc). exists r. split; [| exact Hr].
    destruct (jsstring_eq_dec (company r) c); [assumption | discriminate].
Qed.

(* ------------------------------------------------------------------ *)
(** ** The admin guard *)

Lemma strict_neq_false a b : strict_neq a b = false <-> a = b.
Proof.
  unfold strict_neq, str_eqb. destruct a as [x |], b as [y |]; simpl.
  - destruct (jsstring_eq_dec x y); simpl; split; congruence.
  - split; discriminate.
  - split; discriminate.
  - tauto.
Qed.

Lemma strict_neq_true a b : strict_neq a b = true <-> a <> b.
Proof.
  rewrite <- strict_neq_false. destruct (strict_neq a b); split; congruence.
Qed.

Lemma on_db_select (A : Type) q (x : Db -> A) w :
  available (db w) = true ->
  on_db q (fun d => (Resolved (x d), d)) w =
    (Resolved (x (db w)), mkWorld (db w) (env w) (EvSql q :: trace w)).
Proof.
  intro H. unfold on_db. rewrite H. reflexivity.
Qed.

Section Admin.

Variable datetime_text : Z -> jsstring.
Variable toISOString : Z -> jsstring.

(** With a key configured, a request without the header or with
    another key is answered 401 by the three admin handlers, and the
    world is left as it was: no query is sent, nothing is logged. *)
Lemma admin_guard_closed req now w secret :
  ADMIN_KEY (env w) = Some secret ->
  x_admin_key req <> Some secret ->
  get_admin_waitlist req w = (Resolved Unauthorized, w)
  /\ get_admin_stats toISOString req now w = (Resolved Unauthorized, w)
  /\ get_admin_export datetime_text toISOString req now w = (Resolved Unauthorized, w).
Proof.
  intros Hk Hne. rewrite <- Hk in Hne. apply strict_neq_true in Hne.
  unfold get_admin_waitlist, get_admin_stats, get_admin_export, bind, getenv.
  rewrite Hne. repeat split.
Qed.

Lemma get_admin_waitlist_run req w :
  x_admin_key req = ADMIN_KEY (env w) ->
  available (db w) = true ->
  get_admin_waitlist req w =
    (Resolved (mkResponse 200 (JRows (sort_desc created_at (rows (db w))))),
     mkWorld (db w) (env w) (EvSql SelectAllDesc :: trace w)).
Proof.
  intros Hk Hav. apply strict_neq_false in Hk.
  unfold get_admin_waitlist, bind at 1, getenv. rewrite Hk.
  unfold try_catch, bind, dbAll_desc. rewrite on_db_select by exact Hav.
  reflexivity.
Qed.

Lemma get_admin_export_run req now w :
  x_admin_key req = ADMIN_KEY (env w) ->
  available (db w) = true ->
  get_admin_export datetime_text toISOString req now w =
    (Resolved
       (mkResponse 200
          (Csv (js "attachment; filename=" ++ dq ++ js "waitlist-"
                ++ before_first 84%N (toISOString now) ++ js ".csv" ++ dq)
               (csvContent datetime_text (sort_desc created_at (rows (db w)))))),
     mkWorld (db w) (env w) (EvSql SelectAllDesc :: trace w)).
Proof.
  intros Hk Hav. apply strict_neq_false in Hk.
  unfold get_admin_export, bind at 1, getenv. rewrite Hk.
  unfold try_catch, bind, dbAll_desc. rewrite on_db_select by exact Hav.
  reflexivity.
Qed.

Lemma get_admin_stats_run req now w :
  x_admin_key req = ADMIN_KEY (env w) ->
  available (db w) = true ->
  get_admin_stats toISOString req now w =
    (Resolved
       (mkResponse 200
          (JStats (Z.of_nat (List.length (rows (db w))))
                  (group_count (non_null_plans (rows (db w))))
                  (count_rows (recent now) (rows (db w)))
                  (firstn 5 (sort_desc snd (group_count (map company (rows (db w))))))
                  (toISOString now))),
     mkWorld (db w) (env w)
       (EvSql SelectTopCompanies :: EvSql SelectRecent :: EvSql SelectPlanStats
        :: EvSql SelectCount :: trace w)).
Proof.
  intros Hk Hav. apply strict_neq_false in Hk.
  unfold get_admin_stats, bind at 1, getenv. rewrite Hk.
  unfold try_catch, dbGet_count, dbAll_plan_stats, dbAll_recent,
    dbAll_top_companies.
  unfold bind at 1. rewrite on_db_select by exact Hav.
  unfold bind at 1. rewrite on_db_select by exact Hav.
  unfold bind at 1. rewrite on_db_select by exact Hav.
  unfold bind at 1. rewrite on_db_select by exact Hav.
  reflexivity.
Qed.

End Admin.

(** C3, at the input where the code departs from it: on a server
    started without ADMIN_KEY, a request without the x-admin-key header
    passes the guard of the three admin handlers, which answer 200 with
    the stored records. *)
Theorem admin_open_without_configured_key :
  let w := Samples.keyless_world Samples.five_leads in
  let req := Samples.admin_request None in
  ADMIN_KEY (env w) = None
  /\ x_admin_key req = None
  /\ fst (get_admin_waitlist req w)
     = Resolved (mkResponse 200 (JRows (sort_desc created_at Samples.five_leads)))
  /\ (exists disposition,
        fst (get_admin_export Samples.seconds_text Samples.seconds_text req 1000 w)
        = Resolved (mkResponse 200
                      (Csv disposition
                           (csvContent Samples.seconds_text
                              (sort_desc created_at Samples.five_leads)))))
  /\ (exists byPlan recentCount topCompanies stamp,
        fst (get_admin_stats Samples.seconds_text req 1000 w)
        = Resolved (mkResponse 200 (JStats 5 byPlan recentCount topCompanies stamp)))
  /\ fst (get_admin_waitlist req (Samples.keyless_world []))
     <> fst (get_admin_waitlist req w).
Proof.
  cbv zeta. split; [reflexivity |]. split; [reflexivity |].
  split; [vm_compute; reflexivity |].
  split; [eexists; vm_compute; reflexivity |].
  split; [do 4 eexists; vm_compute; reflexivity |].
  vm_compute. discriminate.
Qed.

(* ------------------------------------------------------------------ *)
(** ** The CSV export *)
















(* ------------------------------------------------------------------ *)
(** ** Statistics *)

(** C8: for an authorised request on an open database, the statistics
    are answered 200 with: the number of rows; one (plan, count) pair
    per plan that some row has, the count being the number of rows with
    that plan (rows without plan are not counted anywhere); the number
    of rows created in the seven days up to the call; and at most five
    (company, count) pairs, with their row counts, in descending order
    of count, no company left out having more rows than a listed one. *)
Theorem stats_report toISOString req now w :
  x_admin_key req = ADMIN_KEY (env w) ->
  available (db w) = true ->
  let rs := rows (db w) in
  exists byPlan topCompanies,
    fst (get_admin_stats toISOString req now w)
    = Resolved (mkResponse 200
                  (JStats (Z.of_nat (List.length rs)) byPlan
                          (count_rows (recent now) rs) topCompanies
                          (toISOString now)))
    /\ NoDup (map fst byPlan)
    /\ (forall p c,
          In (p, c) byPlan <-> (0 < c)%Z /\ c = count_rows (has_plan p) rs)
    /\ (List.length topCompanies <= 5)%nat
    /\ List.length topCompanies
       = Nat.min 5 (List.length (nodup jsstring_eq_dec (map company rs)))
    /\ StronglySorted (fun a b => (snd b <= snd a)%Z) topCompanies
    /\ NoDup (map fst topCompanies)
    /\ (forall co c,
          In (co, c) topCompanies ->
          (0 < c)%Z /\ c = count_rows (from_company co) rs)
    /\ (forall co co' c',
          (0 < count_rows (from_company co) rs)%Z ->
          ~ In co (map fst topCompanies) ->
          In (co', c') topCompanies ->
          (count_rows (from_company co) rs <= c')%Z).
Proof.
  intros Hk Hav rs.
  rewrite (@get_admin_stats_run toISOString req now w Hk Hav). fold rs.
  set (groups := group_count (map company rs)).
  destruct (firstn_sort_desc snd 5 groups) as (Hsorted & Hsub & Hdom & Hlen).
  exists (group_count (non_null_plans rs)), (firstn 5 (sort_desc snd groups)).
  split; [reflexivity |].
  split; [apply group_count_NoDup |].
  split.
  { intros p c. rewrite group_count_In, count_plans, in_plans.
    rewrite <- count_rows_pos. split; intros [H1 H2]; subst c; auto. }
  split; [rewrite Hlen; apply Nat.le_min_l |].
  split.
  { rewrite Hlen. f_equal. unfold groups, group_count. apply length_map. }
  split; [exact Hsorted |].
  split.
  { rewrite <- firstn_map. apply NoDup_firstn.
    apply (NoDup_map_fst_sub (l := groups)); [apply group_count_NoDup |].
    apply sort_desc_perm. }
  split.
  { intros co c Hin. apply Hsub in Hin. unfold groups in Hin.
    apply group_count_In in Hin as [Hco ->]. rewrite count_companies.
    split; [| reflexivity]. apply count_rows_pos, in_companies. exact Hco. }
  intros co co' c' Hpos Hout Hin.
  assert (Hg : In (co, count_rows (from_company co) rs) groups).
  { unfold groups. apply group_count_In. rewrite count_companies.
    split; [| reflexivity]. apply in_companies, count_rows_pos. exact Hpos. }
  apply (Hdom (co', c') (co, count_rows (from_company co) rs) Hin Hg).
  intro Hc. apply Hout. apply (in_map fst) in Hc. exact Hc.
Qed.

(** After three signups on the pro plan and two on the basic plan,
    [byPlan] holds pro with 3 and basic with 2. *)
Lemma stats_report_witness :
  exists byPlan topCompanies,
    fst (get_admin_stats Samples.seconds_text
           (Samples.admin_request (Some (js "s3cret"))) 2000
           (Samples.after_signups Samples.five_signups))
    = Resolved (mkResponse 200 (JStats 5 byPlan 5 topCompanies (js "2000")))
    /\ In (js "pro", 3%Z) byPlan
    /\ In (js "basic", 2%Z) byPlan.
Proof.
  destruct (@stats_report Samples.seconds_text
              (Samples.admin_request (Some (js "s3cret"))) 2000%Z
              (Samples.after_signups Samples.five_signups) eq_refl eq_refl)
    as (byPlan & topCompanies & Hresp & _ & Hplans & _).
  exists byPlan, topCompanies. split; [exact Hresp |].
  split; apply Hplans; split; reflexivity.
Defined.

(* ------------------------------------------------------------------ *)
(** ** Health *)

(** C10: the health handler answers 200 with status healthy and
    database connected in every world, the one whose database could not
    be opened included; it reads and changes nothing. *)
Theorem health_unconditional toISOString now :
  (forall w,
     get_health toISOString now w
     = (Resolved (mkResponse 200 (JHealth "healthy" (toISOString now) "connected")), w))
  /\ (forall w1 w2,
        fst (get_health toISOString now w1) = fst (get_health toISOString now w2))
  /\ available (db Samples.broken_world) = false
  /\ fst (get_health toISOString now Samples.broken_world)
     = Resolved (mkResponse 200 (JHealth "healthy" (toISOString now) "connected")).
Proof.
  repeat split.
Qed.

(* ------------------------------------------------------------------ *)
(** * Further properties *)

(** ** Every way the intake handler can end *)

Section IntakeCases.

Variable sendMail : MailOptions -> option jsstring.

Lemma post_waitlist_refused req now w :
  passes_validation (body req) = false ->
  snd (post_waitlist sendMail req now w) = w
  /\ (fst (post_waitlist sendMail req now w) = Resolved MissingField
      \/ fst (post_waitlist sendMail req now w) = Resolved FieldTooLong
      \/ fst (post_waitlist sendMail req now w) = Resolved InvalidEmail).
Proof.
  unfold passes_validation. rewrite post_waitlist_checks.
  destruct (required_present (body req)); cbn [negb andb]; [| auto].
  destruct (exceeds_maximum (body req)); cbn [negb andb]; [auto |].
  destruct (email_accepted (body req)); cbn [negb]; [discriminate | auto].
Qed.

(** The four ends of a call: refused by a check, database closed,
    email on file, stored. *)
Lemma post_waitlist_cases req now w :
  let out := post_waitlist sendMail req now w in
  let e := sanitized_email (body req) in
  (passes_validation (body req) = false
   /\ snd out = w
   /\ (fst out = Resolved MissingField \/ fst out = Resolved FieldTooLong
       \/ fst out = Resolved InvalidEmail))
  \/ (passes_validation (body req) = true
      /\ available (db w) = false
      /\ out = (Resolved server_error,
                mkWorld (db w) (env w)
                  (EvError "Server error:" (SqliteError "SQLITE_CANTOPEN")
                   :: EvSql (SelectIdByEmail e) :: trace w)))
  \/ (passes_validation (body req) = true
      /\ available (db w) = true
      /\ existsb (email_is e) (rows (db w)) = true
      /\ out = (Resolved DuplicateEmail,
                mkWorld (db w) (env w) (EvSql (SelectIdByEmail e) :: trace w)))
  \/ (passes_validation (body req) = true
      /\ available (db w) = true
      /\ existsb (email_is e) (rows (db w)) = false
      /\ out = (Resolved (Created (next_rowid (db w))),
                let r := row_of (next_rowid (db w)) req now in
                mkWorld (mkDb true (rows (db w) ++ [r]) (next_rowid (db w))) (env w)
                  (EvLog (js "New waitlist signup: " ++ name r ++ js " ("
                          ++ email r ++ js ") from " ++ company r)
                   :: mail_events sendMail (env w) r
                   ++ EvSql (insert_query r)
                   :: EvSql (SelectIdByEmail (email r)) :: trace w))).
Proof.
  cbv zeta.
  destruct (passes_validation (body req)) eqn:V.
  - rewrite (post_waitlist_valid sendMail req now w V).
    destruct (available (db w)) eqn:Hav.
    + destruct (existsb (email_is (sanitized_email (body req))) (rows (db w))) eqn:Hex.
      * right. right. left. repeat split.
        apply store_phase_duplicate; assumption.
      * right. right. right. repeat split.
        apply (store_phase_fresh sendMail req now w Hav Hex).
    + right. left. repeat split. apply store_phase_unavailable. assumption.
  - left. split; [reflexivity |]. apply post_waitlist_refused. assumption.
Qed.

End IntakeCases.

(* ------------------------------------------------------------------ *)
(** ** One call at a time *)

Section Steps.

Variable sendMail : MailOptions -> option jsstring.
Variable datetime_text : Z -> jsstring.
Variable toISOString : Z -> jsstring.

Ltac run_reader :=
  repeat match goal with
         | |- context [strict_neq ?a ?b] => destruct (strict_neq a b)
         | |- context [available ?d] => destruct (available d)
         end; cbn; auto.

(** The handlers that only read. *)
Lemma readers_keep_world c w :
  (forall req now, c <> PostWaitlist req now) ->
  let out := serve sendMail datetime_text toISOString c w in
  db (snd out) = db w /\ env (snd out) = env w /\ mails (snd out) = mails w
  /\ is_created (fst out) = false.
Proof.
  intros Hc. destruct c as [req now | | req | req now | req now | now]; cbv zeta;
    cbn [serve].
  - exfalso. apply (Hc req now). reflexivity.
  - unfold get_waitlist_count, try_catch, bind, dbGet_count, on_db, console_error,
      emit, ret, mails. run_reader.
  - unfold get_admin_waitlist, try_catch, bind, getenv, dbAll_desc, on_db,
      console_error, emit, ret, mails. run_reader.
  - unfold get_admin_stats, try_catch, bind, getenv, dbGet_count, dbAll_plan_stats,
      dbAll_recent, dbAll_top_companies, on_db, console_error, emit, ret, throw, mails.
    cbn [db env trace]. run_reader.
  - unfold get_admin_export, try_catch, bind, getenv, dbAll_desc, on_db,
      console_error, emit, ret, mails. run_reader.
  - unfold get_health, ret. auto.
Qed.

End Steps.

(** The largest id the table has known. *)
Lemma max_id_app rs r : max_id (rs ++ [r]) = Z.max (max_id rs) (Z.max (id r) 0).
Proof.
  induction rs as [| x rs IH]; simpl; [lia |]. rewrite IH. lia.
Qed.

Lemma max_id_nonneg rs : (0 <= max_id rs)%Z.
Proof. induction rs as [| x rs IH]; simpl; lia. Qed.

Section StepFacts.

Variable sendMail : MailOptions -> option jsstring.
Variable datetime_text : Z -> jsstring.
Variable toISOString : Z -> jsstring.

Let serve' := serve sendMail datetime_text toISOString.
Let serve_all' := serve_all sendMail datetime_text toISOString.

Lemma mails_after_insert req now w :
  let r := row_of (next_rowid (db w)) req now in
  forall d t0,
    mails (mkWorld d (env w)
             (EvLog t0 :: mail_events sendMail (env w) r
              ++ EvSql (insert_query r) :: EvSql (SelectIdByEmail (email r)) :: trace w))
    = confirmation_mail (env w) r :: mails w.
Proof.
  intros r d t0. unfold mails, mail_events. cbn [trace flat_map app].
  destruct (sendMail (confirmation_mail (env w) r)); reflexivity.
Qed.

(** What one call does to the table, the environment and the mails. *)
Lemma serve_step c w :
  let out := serve' c w in
  env (snd out) = env w
  /\ available (db (snd out)) = available (db w)
  /\ ((is_created (fst out) = false /\ db (snd out) = db w
       /\ mails (snd out) = mails w)
      \/ (exists req now,
            c = PostWaitlist req now
            /\ passes_validation (body req) = true
            /\ available (db w) = true
            /\ existsb (email_is (sanitized_email (body req))) (rows (db w)) = false
            /\ fst out = Resolved (Created (next_rowid (db w)))
            /\ db (snd out)
               = mkDb true (rows (db w) ++ [row_of (next_rowid (db w)) req now])
                      (next_rowid (db w))
            /\ mails (snd out)
               = confirmation_mail (env w) (row_of (next_rowid (db w)) req now)
                 :: mails w)).
Proof.
  destruct c as [req now | | req0 | req0 now0 | req0 now0 | now0];
    try (cbv zeta; unfold serve';
         match goal with
         | |- context [serve _ _ _ ?c w] =>
             destruct (@readers_keep_world sendMail datetime_text toISOString c w)
               as (Hdb & Henv & Hmails & Hcr); [discriminate |]
         end;
         cbv zeta in Hdb, Henv, Hmails, Hcr;
         split; [exact Henv |]; split; [rewrite Hdb; reflexivity |];
         left; auto).
  cbv zeta. unfold serve'. cbn [serve].
  destruct (post_waitlist_cases sendMail req now w)
    as [(V & Hw & Hr) | [(V & Hav & E) | [(V & Hav & Hex & E) | (V & Hav & Hex & E)]]];
    cbv zeta in *.
  - rewrite Hw. split; [reflexivity |]. split; [reflexivity |]. left.
    destruct Hr as [-> | [-> | ->]]; auto.
  - rewrite E. cbn [fst snd db env]. split; [reflexivity |]. split; [reflexivity |].
    left. auto.
  - rewrite E. cbn [fst snd db env]. split; [reflexivity |]. split; [reflexivity |].
    left. auto.
  - rewrite E. cbn [fst snd db env available]. split; [reflexivity |].
    split; [symmetry; exact Hav |]. right. exists req, now.
    repeat split; auto. apply mails_after_insert.
Qed.

(** A property of rows that every stored submission has is kept by
    every series of calls. *)
Lemma rows_invariant (P : Row -> Prop) :
  (forall i req now, passes_validation (body req) = true -> P (row_of i req now)) ->
  forall cs w,
    Forall P (rows (db w)) -> Forall P (rows (db (serve_all' cs w))).
Proof.
  intros Hnew cs. induction cs as [| c cs IH]; intros w Hw; [exact Hw |].
  unfold serve_all'. cbn [serve_all]. apply IH.
  destruct (serve_step c w) as (_ & _ & [(_ & Hdb & _) | (req & now & _ & V & _ & _ & _ & Hdb & _)]);
    unfold serve' in Hdb; rewrite Hdb; [exact Hw |].
  cbn [rows]. apply Forall_app. split; [exact Hw |].
  constructor; [apply Hnew; exact V | constructor].
Qed.

Lemma serve_all_app cs1 cs2 w :
  serve_all' (cs1 ++ cs2) w = serve_all' cs2 (serve_all' cs1 w).
Proof.
  revert w. induction cs1 as [| c cs1 IH]; intro w; [reflexivity |].
  unfold serve_all'. cbn [serve_all app]. apply IH.
Qed.

Lemma serve_all_env cs w :
  env (serve_all' cs w) = env w
  /\ available (db (serve_all' cs w)) = available (db w).
Proof.
  revert w. induction cs as [| c cs IH]; intro w; [auto |].
  unfold serve_all'. cbn [serve_all].
  destruct (serve_step c w) as (He & Ha & _). unfold serve' in He, Ha.
  destruct (IH (snd (serve sendMail datetime_text toISOString c w))) as (He' & Ha').
  unfold serve_all' in He', Ha'. rewrite He', Ha'. auto.
Qed.

End StepFacts.

(* ------------------------------------------------------------------ *)
(** ** The table over any series of calls *)

(** X2: the table only grows, and only by a 201. A call that is not
    answered 201 leaves the table as it was; a call answered 201 adds
    one row at the end; so after any series of calls the old table is
    the beginning of the new one, with at most one more row per call.
    No call changes the environment or the state of the connection. *)
Theorem table_append_only sendMail datetime_text toISOString cs w :
  let serve1 := serve sendMail datetime_text toISOString in
  let w' := serve_all sendMail datetime_text toISOString cs w in
  (forall c,
     (is_created (fst (serve1 c w)) = false -> db (snd (serve1 c w)) = db w)
     /\ (is_created (fst (serve1 c w)) = true ->
         exists r, rows (db (snd (serve1 c w))) = rows (db w) ++ [r]))
  /\ (exists added,
        rows (db w') = rows (db w) ++ added
        /\ (List.length added <= List.length cs)%nat)
  /\ env w' = env w
  /\ available (db w') = available (db w).
Proof.
  cbv zeta. split; [| split].
  - intro c.
    destruct (serve_step sendMail datetime_text toISOString c w)
      as (_ & _ & [(Hcr & Hdb & _) | (req & now & _ & _ & _ & _ & Hout & Hdb & _)]).
    + split; [auto | rewrite Hcr; discriminate].
    + split; [rewrite Hout; discriminate |]. intros _. rewrite Hdb. cbn [rows].
      eexists. reflexivity.
  - revert w. induction cs as [| c cs IH]; intro w.
    + exists []. rewrite app_nil_r. auto.
    + cbn [serve_all].
      destruct (IH (snd (serve sendMail datetime_text toISOString c w)))
        as (added & Hrows & Hlen).
      destruct (serve_step sendMail datetime_text toISOString c w)
        as (_ & _ & [(_ & Hdb & _) | (req & now & _ & _ & _ & _ & _ & Hdb & _)]);
        rewrite Hdb in Hrows.
      * exists added. split; [exact Hrows | simpl; lia].
      * cbn [rows] in Hrows. rewrite <- app_assoc in Hrows.
        eexists. split; [exact Hrows | simpl; lia].
  - apply serve_all_env.
Qed.

Lemma next_rowid_after_insert d r :
  id r = next_rowid d ->
  next_rowid (mkDb true (rows d ++ [r]) (next_rowid d)) = (next_rowid d + 1)%Z.
Proof.
  intro Hid. unfold next_rowid at 1. cbn [seq rows]. rewrite max_id_app, Hid.
  unfold next_rowid. pose proof (max_id_nonneg (rows d)). lia.
Qed.

Lemma next_rowid_step sendMail datetime_text toISOString c w :
  (next_rowid (db w)
   <= next_rowid (db (snd (serve sendMail datetime_text toISOString c w))))%Z.
Proof.
  destruct (serve_step sendMail datetime_text toISOString c w)
    as (_ & _ & [(_ & Hdb & _) | (req & now & _ & _ & _ & _ & _ & Hdb & _)]);
    rewrite Hdb; [lia |].
  rewrite next_rowid_after_insert by reflexivity. lia.
Qed.

Lemma next_rowid_mono sendMail datetime_text toISOString cs w :
  (next_rowid (db w)
   <= next_rowid (db (serve_all sendMail datetime_text toISOString cs w)))%Z.
Proof.
  revert w. induction cs as [| c cs IH]; intro w; cbn [serve_all]; [lia |].
  pose proof (next_rowid_step sendMail datetime_text toISOString c w).
  specialize (IH (snd (serve sendMail datetime_text toISOString c w))). lia.
Qed.

(** X3: ids grow from one stored submission to the next, as long as
    they are integers a JavaScript number holds exactly: if a
    submission is answered 201 with id [i1] and, after any series of
    calls, another is stored under an id [i2] not above
    Number.MAX_SAFE_INTEGER and answered 201, then [i1 < i2], and [i1]
    is below that bound as well. *)
Theorem ids_strictly_increase sendMail datetime_text toISOString
    req1 t1 req2 t2 cs w w1 w2 i1 i2 :
  post_waitlist sendMail req1 t1 w = (Resolved (Created i1), w1) ->
  post_waitlist sendMail req2 t2
    (serve_all sendMail datetime_text toISOString cs w1)
  = (Resolved (Created i2), w2) ->
  (i2 <= MAX_SAFE_INTEGER)%Z ->
  (i1 < i2 /\ i1 < MAX_SAFE_INTEGER)%Z.
Proof.
  intros H1 H2 Hsafe. cut (i1 < i2)%Z; [lia |].
  apply post_waitlist_created_inv in H1 as (_ & _ & _ & Hi1 & Hdb1 & _).
  apply post_waitlist_created_inv in H2 as (_ & _ & _ & Hi2 & _ & _).
  pose proof (next_rowid_mono sendMail datetime_text toISOString cs w1) as Hmono.
  rewrite Hdb1 in Hmono at 1. subst i1.
  rewrite next_rowid_after_insert in Hmono by reflexivity. lia.
Qed.

Lemma ids_strictly_increase_witness :
  exists w1 w2,
    post_waitlist Samples.transport_up (Samples.signup "p1@x.io" "pro") 1000
      Samples.fresh_world = (Resolved (Created 1), w1)
    /\ post_waitlist Samples.transport_up (Samples.signup "b1@x.io" "basic") 1005
         (serve_all Samples.transport_up Samples.seconds_text Samples.seconds_text
            [GetWaitlistCount; PostWaitlist Samples.alice 1001] w1)
       = (Resolved (Created 3), w2)
    /\ (3 <= MAX_SAFE_INTEGER)%Z
    /\ (1 < 3)%Z.
Proof.
  do 2 eexists. split; [vm_compute; reflexivity |]. split; [vm_compute; reflexivity |].
  split; [vm_compute; discriminate |].
  eapply (@ids_strictly_increase Samples.transport_up Samples.seconds_text
            Samples.seconds_text (Samples.signup "p1@x.io" "pro") 1000%Z
            (Samples.signup "b1@x.io" "basic") 1005%Z
            [GetWaitlistCount; PostWaitlist Samples.alice 1001%Z]
            Samples.fresh_world);
    try (vm_compute; reflexivity).
  vm_compute. discriminate.
Defined.

Lemma sorted_snoc (A : Type) (R : A -> A -> Prop) l x :
  StronglySorted R l -> Forall (fun a => R a x) l -> StronglySorted R (l ++ [x]).
Proof.
  induction 1 as [| y l Hl IH Hy]; intro Hx; simpl.
  - repeat constructor.
  - inversion Hx as [| ? ? Hyx Hlx]; subst. constructor; [apply IH; exact Hlx |].
    apply Forall_app. split; [exact Hy | constructor; [exact Hyx | constructor]].
Qed.

Lemma ascending_NoDup rs : ids_ascending rs -> NoDup (map id rs).
Proof.
  induction 1 as [| r rs Hs IH Hr]; simpl; constructor; [| exact IH].
  intro Hin. apply in_map_iff in Hin as (x & E & Hx).
  rewrite Forall_forall in Hr. specialize (Hr x Hx). lia.
Qed.

(** X4: ids follow the order of insertion. If the ids of the table
    grow from each row to the next, they still do after any series of
    calls; in particular no two rows share an id. *)
Theorem ids_stay_ascending sendMail datetime_text toISOString cs w :
  ids_ascending (rows (db w)) ->
  ids_ascending (rows (db (serve_all sendMail datetime_text toISOString cs w)))
  /\ NoDup (map id (rows (db (serve_all sendMail datetime_text toISOString cs w)))).
Proof.
  intro H. assert (Hasc : ids_ascending
            (rows (db (serve_all sendMail datetime_text toISOString cs w)))).
  { revert w H. induction cs as [| c cs IH]; intros w H; cbn [serve_all]; [exact H |].
    apply IH.
    destruct (serve_step sendMail datetime_text toISOString c w)
      as (_ & _ & [(_ & Hdb & _) | (req & now & _ & _ & _ & _ & _ & Hdb & _)]);
      rewrite Hdb; [exact H |].
    cbn [rows]. apply sorted_snoc; [exact H |].
    apply Forall_forall. intros r Hr. cbn [row_of id].
    apply max_id_bound in Hr. unfold next_rowid. lia. }
  split; [exact Hasc | apply ascending_NoDup; exact Hasc].
Qed.

Lemma ids_stay_ascending_witness :
  ids_ascending (rows (db Samples.stocked_world))
  /\ NoDup (map id (rows (db (serve_all Samples.transport_up Samples.seconds_text
                                Samples.seconds_text
                                [PostWaitlist Samples.alice 1000; GetHealth 1001]
                                Samples.stocked_world)))).
Proof.
  assert (H : ids_ascending (rows (db Samples.stocked_world))).
  { unfold ids_ascending. cbn. repeat (constructor; [| repeat constructor; cbn; lia]).
    constructor. }
  split; [exact H |].
  apply (ids_stay_ascending Samples.transport_up Samples.seconds_text
           Samples.seconds_text
           [PostWaitlist Samples.alice 1000; GetHealth 1001] Samples.stocked_world H).
Defined.

Lemma email_not_on_file e rs :
  existsb (email_is e) rs = false -> ~ In e (map email rs).
Proof.
  intros H Hin. apply in_map_iff in Hin as (r & E & Hr).
  assert (Ht : existsb (email_is e) rs = true).
  { apply existsb_exists. exists r. split; [exact Hr | apply email_is_refl; exact E]. }
  congruence.
Qed.

Lemma NoDup_snoc (A : Type) (l : list A) x : NoDup l -> ~ In x l -> NoDup (l ++ [x]).
Proof.
  intros Hl Hx. apply NoDup_app; [exact Hl | repeat constructor; simpl; tauto |].
  intros a Ha [-> | []]. contradiction.
Qed.

(** X5: emails stay unique. If no two rows of the table share an
    email, none do after any series of calls: the handler stores a
    submission only when its sanitised email is not on file. *)
Theorem emails_stay_unique sendMail datetime_text toISOString cs w :
  NoDup (map email (rows (db w))) ->
  NoDup (map email (rows (db (serve_all sendMail datetime_text toISOString cs w)))).
Proof.
  revert w. induction cs as [| c cs IH]; intros w H; cbn [serve_all]; [exact H |].
  apply IH.
  destruct (serve_step sendMail datetime_text toISOString c w)
    as (_ & _ & [(_ & Hdb & _) | (req & now & _ & _ & _ & Hex & _ & Hdb & _)]);
    rewrite Hdb; [exact H |].
  cbn [rows]. rewrite map_app. cbn [map row_of email].
  apply NoDup_snoc; [exact H | apply email_not_on_file; exact Hex].
Qed.

Lemma emails_stay_unique_witness :
  NoDup (map email (rows (db Samples.fresh_world)))
  /\ NoDup (map email
              (rows (db (serve_all Samples.transport_up Samples.seconds_text
                           Samples.seconds_text
                           [PostWaitlist Samples.alice 1000;
                            PostWaitlist Samples.alice_again 1001;
                            PostWaitlist Samples.tagged_name 1002]
                           Samples.fresh_world)))).
Proof.
  assert (H : NoDup (map email (rows (db Samples.fresh_world)))) by constructor.
  split; [exact H |].
  apply (emails_stay_unique Samples.transport_up Samples.seconds_text
           Samples.seconds_text
           [PostWaitlist Samples.alice 1000; PostWaitlist Samples.alice_again 1001;
            PostWaitlist Samples.tagged_name 1002] Samples.fresh_world H).
Defined.

(* ------------------------------------------------------------------ *)
(** ** What is stored of a submission *)

Lemma trimStart_length s : (List.length (trimStart s) <= List.length s)%nat.
Proof.
  induction s as [| c s IH]; simpl; [lia |].
  destruct (is_space c); simpl; lia.
Qed.

Lemma trim_length s : (List.length (trim s) <= List.length s)%nat.
Proof.
  unfold trim, trimEnd. rewrite length_rev.
  pose proof (trimStart_length (rev (trimStart s))) as H1.
  rewrite length_rev in H1. pose proof (trimStart_length s). lia.
Qed.

Lemma sanitizeInput_length s : (List.length (sanitizeInput s) <= List.length s)%nat.
Proof.
  unfold sanitizeInput, strip_angles.
  pose proof (filter_length_le (fun c => negb (is_angle c)) (trim s)).
  pose proof (trim_length s). lia.
Qed.

Lemma sanitizeInput_markup_free s : markup_free (sanitizeInput s).
Proof.
  intros c Hc. unfold sanitizeInput in Hc. apply strip_angles_In in Hc as [_ Ha].
  unfold is_angle in Ha. apply orb_false_iff in Ha as [H1 H2].
  apply N.eqb_neq in H1, H2. auto.
Qed.

Lemma length_gt_false v n :
  length_gt v n = false -> (List.length (text v) <= n)%nat.
Proof.
  destruct v as [| | s]; simpl; try lia. intro H. apply Nat.ltb_ge in H. exact H.
Qed.

Lemma sanitize_or_null_length v n :
  length_gt v n = false -> (opt_length (sanitize_or_null v) <= n)%nat.
Proof.
  intro H. apply length_gt_false in H. rewrite sanitize_or_null_eq.
  destruct (truthy v); simpl; [| lia].
  pose proof (sanitizeInput_length (text v)). lia.
Qed.

Lemma sanitize_or_null_markup_free v : opt_markup_free (sanitize_or_null v).
Proof.
  rewrite sanitize_or_null_eq. destruct (truthy v); simpl; [| exact I].
  apply sanitizeInput_markup_free.
Qed.

Lemma stored_within_limits i req now :
  passes_validation (body req) = true -> within_limits (row_of i req now).
Proof.
  intro V. apply passes_validation_iff in V as (_ & Hmax & _).
  unfold exceeds_maximum in Hmax. repeat rewrite orb_false_iff in Hmax.
  destruct Hmax as (((((Hn & He) & Hp) & Hc) & Hpl) & Hch).
  unfold within_limits, row_of, sanitized_email.
  cbn [name email phone company plan biggest_challenge].
  apply length_gt_false in Hn, He, Hc, Hch.
  pose proof (sanitizeInput_length (text (b_name (body req)))).
  pose proof (sanitizeInput_length (text (b_email (body req)))).
  pose proof (sanitizeInput_length (text (b_company (body req)))).
  pose proof (sanitizeInput_length (text (b_biggest_challenge (body req)))).
  pose proof (sanitize_or_null_length _ _ Hp).
  pose proof (sanitize_or_null_length _ _ Hpl).
  repeat split; lia.
Qed.

(** X6: stored texts respect the maxima. If every row of the table has
    a name, email and company of at most 100 code units, a phone of at
    most 20, a plan of at most 50 and a biggest_challenge of at most
    500, the same holds after any series of calls. *)
Theorem stored_rows_within_limits sendMail datetime_text toISOString cs w :
  Forall within_limits (rows (db w)) ->
  Forall within_limits
    (rows (db (serve_all sendMail datetime_text toISOString cs w))).
Proof.
  apply rows_invariant. intros i req now V. apply stored_within_limits. exact V.
Qed.

Lemma stored_rows_within_limits_witness :
  Forall within_limits (rows (db Samples.fresh_world))
  /\ Forall within_limits
       (rows (db (serve_all Samples.transport_up Samples.seconds_text
                    Samples.seconds_text
                    [PostWaitlist Samples.alice 1000;
                     PostWaitlist Samples.long_name 1001]
                    Samples.fresh_world))).
Proof.
  assert (H : Forall within_limits (rows (db Samples.fresh_world))) by constructor.
  split; [exact H |].
  apply (stored_rows_within_limits Samples.transport_up Samples.seconds_text
           Samples.seconds_text
           [PostWaitlist Samples.alice 1000; PostWaitlist Samples.long_name 1001]
           Samples.fresh_world H).
Defined.

(** X7: stored texts hold no [<] and no [>]. If the name, email, phone,
    company, plan and biggest_challenge of every row are free of both
    characters, they still are after any series of calls. *)
Theorem stored_rows_markup_free sendMail datetime_text toISOString cs w :
  Forall row_markup_free (rows (db w)) ->
  Forall row_markup_free
    (rows (db (serve_all sendMail datetime_text toISOString cs w))).
Proof.
  apply rows_invariant. intros i req now _.
  unfold row_markup_free, row_of, sanitized_email.
  cbn [name email phone company plan biggest_challenge].
  refine (conj _ (conj _ (conj _ (conj _ (conj _ _)))));
    first [apply sanitizeInput_markup_free | apply sanitize_or_null_markup_free].
Qed.

Lemma stored_rows_markup_free_witness :
  Forall row_markup_free (rows (db Samples.fresh_world))
  /\ Forall row_markup_free
       (rows (db (serve_all Samples.transport_up Samples.seconds_text
                    Samples.seconds_text
                    [PostWaitlist Samples.tagged_name 1000;
                     GetAdminWaitlist (Samples.admin_request None)]
                    Samples.fresh_world))).
Proof.
  assert (H : Forall row_markup_free (rows (db Samples.fresh_world))) by constructor.
  split; [exact H |].
  apply (stored_rows_markup_free Samples.transport_up Samples.seconds_text
           Samples.seconds_text
           [PostWaitlist Samples.tagged_name 1000;
            GetAdminWaitlist (Samples.admin_request None)]
           Samples.fresh_world H).
Defined.

(** X8: one confirmation per stored submission, none otherwise. A call
    of the intake handler answered 201 hands exactly one message to the
    mail transport, addressed to the email of the row it stored and
    sent from EMAIL_USER, or from alex@lemonsleads.co.uk when that
    variable is unset or empty; a call answered otherwise hands it
    nothing. *)
Theorem confirmation_per_signup sendMail req now w :
  let out := post_waitlist sendMail req now w in
  (is_created (fst out) = true ->
   exists r m,
     rows (db (snd out)) = rows (db w) ++ [r]
     /\ mails (snd out) = m :: mails w
     /\ mail_to m = email r
     /\ mail_from m
        = match EMAIL_USER (env w) with
          | Some (c :: user) => c :: user
          | _ => js "alex@lemonsleads.co.uk"
          end)
  /\ (is_created (fst out) = false -> mails (snd out) = mails w).
Proof.
  cbv zeta.
  destruct (serve_step sendMail (fun _ => []) (fun _ => []) (PostWaitlist req now) w)
    as (_ & _ & [(Hcr & _ & Hm) | (req' & now' & Ec & _ & _ & _ & Hout & Hdb & Hm)]);
    cbn [serve] in *.
  - split; [rewrite Hcr; discriminate | intros _; exact Hm].
  - injection Ec as <- <-. split; [| rewrite Hout; discriminate].
    intros _. rewrite Hdb, Hm. cbn [rows].
    do 2 eexists. split; [reflexivity |]. split; [reflexivity |].
    split; [reflexivity |].
    unfold confirmation_mail, or_default, or_else. cbn [mail_from].
    destruct (EMAIL_USER (env w)) as [[| c user] |]; reflexivity.
Qed.

Lemma confirmation_per_signup_witness :
  exists r m,
    rows (db (snd (post_waitlist Samples.transport_down Samples.alice_again 1000
                     Samples.fresh_world)))
    = rows (db Samples.fresh_world) ++ [r]
    /\ mails (snd (post_waitlist Samples.transport_down Samples.alice_again 1000
                     Samples.fresh_world)) = m :: mails Samples.fresh_world
    /\ mail_to m = email r
    /\ mail_from m = js "alex@lemonsleads.co.uk".
Proof.
  destruct (proj1 (confirmation_per_signup Samples.transport_down
                     Samples.alice_again 1000%Z Samples.fresh_world) eq_refl)
    as (r & m & H1 & H2 & H3 & H4).
  exists r, m. auto.
Defined.

(* ------------------------------------------------------------------ *)
(** ** The public count *)

Lemma get_waitlist_count_open w :
  available (db w) = true ->
  get_waitlist_count w
  = (Resolved (mkResponse 200 (JCount (Z.of_nat (List.length (rows (db w)))))),
     mkWorld (db w) (env w) (EvSql SelectCount :: trace w)).
Proof.
  intro Hav. unfold get_waitlist_count, try_catch, bind, dbGet_count.
  rewrite on_db_select by exact Hav. reflexivity.
Qed.

(** X9: the count follows the signups. On an open database the count
    route answers 200 with the number of rows, to any caller, and
    leaves the table as it is; asked again after a call of the intake
    handler, it answers one more if that call was answered 201 and the
    same number otherwise. *)
Theorem count_follows_signups sendMail req now w :
  available (db w) = true ->
  let n := Z.of_nat (List.length (rows (db w))) in
  let out := post_waitlist sendMail req now w in
  fst (get_waitlist_count w) = Resolved (mkResponse 200 (JCount n))
  /\ db (snd (get_waitlist_count w)) = db w
  /\ fst (get_waitlist_count (snd out))
     = Resolved (mkResponse 200
                   (JCount (if is_created (fst out) then n + 1 else n)%Z)).
Proof.
  intros Hav n out. rewrite (get_waitlist_count_open w Hav).
  split; [reflexivity |]. split; [reflexivity |].
  destruct (serve_step sendMail (fun _ => []) (fun _ => []) (PostWaitlist req now) w)
    as (_ & Hav' & [(Hcr & Hdb & _) | (r' & n' & Ec & _ & _ & _ & Hout & Hdb & _)]);
    cbn [serve] in *; fold out in Hav', Hdb.
  - fold out in Hcr. rewrite Hcr.
    rewrite get_waitlist_count_open by (rewrite Hav'; exact Hav).
    rewrite Hdb. reflexivity.
  - fold out in Hout. rewrite Hout. cbn [is_created status Created Z.eqb Pos.eqb].
    rewrite get_waitlist_count_open by (rewrite Hav'; exact Hav).
    rewrite Hdb. cbn [fst rows]. rewrite length_app. cbn [List.length].
    unfold n. do 3 f_equal. lia.
Qed.

Lemma count_follows_signups_witness :
  fst (get_waitlist_count Samples.stocked_world)
  = Resolved (mkResponse 200 (JCount 5))
  /\ fst (get_waitlist_count
            (snd (post_waitlist Samples.transport_up Samples.alice 1000
                    Samples.stocked_world)))
     = Resolved (mkResponse 200 (JCount 6)).
Proof.
  destruct (count_follows_signups Samples.transport_up Samples.alice 1000
              Samples.stocked_world eq_refl) as (H1 & _ & H2).
  split; [exact H1 | exact H2].
Defined.

(* ------------------------------------------------------------------ *)
(** ** The admin routes *)

Lemma admin_closed_run datetime_text toISOString req now w :
  x_admin_key req = ADMIN_KEY (env w) ->
  available (db w) = false ->
  let failed prefix q :=
    (Resolved database_error,
     mkWorld (db w) (env w)
       (EvError prefix (SqliteError "SQLITE_CANTOPEN") :: EvSql q :: trace w)) in
  get_admin_waitlist req w = failed "Database error:"%string SelectAllDesc
  /\ get_admin_stats toISOString req now w = failed "Stats error:"%string SelectCount
  /\ get_admin_export datetime_text toISOString req now w
     = failed "Export error:"%string SelectAllDesc.
Proof.
  intros Hk Hav. apply strict_neq_false in Hk. cbv zeta.
  split; [| split].
  - unfold get_admin_waitlist, getenv. unfold bind at 1. rewrite Hk.
    unfold try_catch, bind, dbAll_desc, on_db. rewrite Hav. reflexivity.
  - unfold get_admin_stats, getenv. unfold bind at 1. rewrite Hk.
    unfold try_catch. unfold bind at 1. unfold dbGet_count, on_db.
    rewrite Hav. reflexivity.
  - unfold get_admin_export, getenv. unfold bind at 1. rewrite Hk.
    unfold try_catch, bind, dbAll_desc, on_db. rewrite Hav. reflexivity.
Qed.

(** X10: with a key configured, the three admin routes answer 401
    exactly when the x-admin-key header is absent or differs from it. A
    refused request leaves the world as it was: no query is sent and
    nothing is logged, so the answer is the same for every table. *)
Theorem admin_key_required datetime_text toISOString req now w secret :
  ADMIN_KEY (env w) = Some secret ->
  let listAll := get_admin_waitlist req w in
  let stats := get_admin_stats toISOString req now w in
  let export := get_admin_export datetime_text toISOString req now w in
  (x_admin_key req <> Some secret ->
   listAll = (Resolved Unauthorized, w) /\ stats = (Resolved Unauthorized, w)
   /\ export = (Resolved Unauthorized, w))
  /\ (x_admin_key req = Some secret ->
      fst listAll <> Resolved Unauthorized /\ fst stats <> Resolved Unauthorized
      /\ fst export <> Resolved Unauthorized
      /\ queries (snd listAll) = SelectAllDesc :: queries w).
Proof.
  intros Hk. cbv zeta. split.
  - intro Hne. apply (admin_guard_closed datetime_text toISOString req now w Hk Hne).
  - intro Heq. rewrite <- Hk in Heq. destruct (available (db w)) eqn:Hav.
    + rewrite (@get_admin_waitlist_run req w Heq Hav),
        (@get_admin_stats_run toISOString req now w Heq Hav),
        (@get_admin_export_run datetime_text toISOString req now w Heq Hav).
      repeat split; discriminate.
    + destruct (@admin_closed_run datetime_text toISOString req now w Heq Hav)
        as (-> & -> & ->).
      repeat split; discriminate.
Qed.

Lemma admin_key_required_witness :
  get_admin_waitlist (Samples.admin_request (Some (js "guess"))) Samples.stocked_world
  = (Resolved Unauthorized, Samples.stocked_world)
  /\ get_admin_export Samples.seconds_text Samples.seconds_text
       (Samples.admin_request None) 1000 Samples.stocked_world
     = (Resolved Unauthorized, Samples.stocked_world).
Proof.
  split.
  - apply (proj1 (@admin_key_required Samples.seconds_text Samples.seconds_text
                    (Samples.admin_request (Some (js "guess"))) 1000%Z
                    Samples.stocked_world (js "s3cret") eq_refl)).
    discriminate.
  - apply (proj1 (@admin_key_required Samples.seconds_text Samples.seconds_text
                    (Samples.admin_request None) 1000%Z
                    Samples.stocked_world (js "s3cret") eq_refl)).
    discriminate.
Defined.

(** X12: the list of all submissions. For a request with the right key
    on an open database the list route answers 200 with every row of
    the table, each once, latest [created_at] first, after a single
    query; the table is left as it was. *)
Theorem list_all_latest_first req w :
  x_admin_key req = ADMIN_KEY (env w) ->
  available (db w) = true ->
  exists listed,
    get_admin_waitlist req w
    = (Resolved (mkResponse 200 (JRows listed)),
       mkWorld (db w) (env w) (EvSql SelectAllDesc :: trace w))
    /\ Permutation (rows (db w)) listed
    /\ StronglySorted (fun a b => (created_at b <= created_at a)%Z) listed
    /\ List.length listed = List.length (rows (db w)).
Proof.
  intros Hk Hav. exists (sort_desc created_at (rows (db w))).
  split; [apply get_admin_waitlist_run; assumption |].
  split; [apply sort_desc_perm |].
  split; [apply (sort_desc_sorted created_at) |].
  symmetry. apply Permutation_length, sort_desc_perm.
Qed.

Lemma list_all_latest_first_witness :
  exists listed,
    fst (get_admin_waitlist (Samples.admin_request (Some (js "s3cret")))
           Samples.stocked_world)
    = Resolved (mkResponse 200 (JRows listed))
    /\ List.length listed = 5%nat.
Proof.
  destruct (@list_all_latest_first (Samples.admin_request (Some (js "s3cret")))
              Samples.stocked_world eq_refl eq_refl)
    as (listed & E & _ & _ & Hlen).
  exists listed. rewrite E. auto.
Defined.

(* ------------------------------------------------------------------ *)
(** ** The lines of the export *)

Lemma line_feeds_app a b : line_feeds (a ++ b) = (line_feeds a + line_feeds b)%nat.
Proof. apply count_occ_app. Qed.

Lemma line_feeds_join h l :
  line_feeds (join nl (h :: l))
  = (line_feeds h + List.length l + list_sum (map line_feeds l))%nat.
Proof.
  unfold list_sum. revert h. induction l as [| x l IH]; intro h.
  - cbn [join List.length map fold_right]. lia.
  - change (join nl (h :: x :: l)) with (h ++ nl ++ join nl (x :: l)).
    rewrite !line_feeds_app, IH. cbn [map fold_right List.length].
    change (line_feeds nl) with 1%nat. lia.
Qed.

Lemma list_sum_perm l l' : Permutation l l' -> list_sum l = list_sum l'.
Proof.
  induction 1; simpl; lia.
Qed.

Lemma line_feeds_uint u : line_feeds (js (NilEmpty.string_of_uint u)) = 0%nat.
Proof.
  unfold line_feeds, js.
  induction u; cbn [NilEmpty.string_of_uint list_ascii_of_string map count_occ];
    try reflexivity;
    match goal with
    | |- context [N.eq_dec ?a ?b] => destruct (N.eq_dec a b) as [E | _];
                                      [vm_compute in E; discriminate | exact IHu]
    end.
Qed.

Lemma line_feeds_dec n : line_feeds (dec n) = 0%nat.
Proof.
  unfold dec, NilZero.string_of_int, NilZero.string_of_uint.
  destruct (Z.to_int n) as [u | u]; destruct u; try reflexivity;
    try apply line_feeds_uint;
    change (line_feeds (js (String "-" ?s))) with (line_feeds (js s));
    try reflexivity.
  all: match goal with
       | |- line_feeds (js (String "-" ?s)) = _ =>
           change (line_feeds (js (String "-" s))) with (line_feeds (js s))
       end; apply line_feeds_uint.
Qed.

Lemma line_feeds_quoted s : line_feeds (quoted s) = line_feeds s.
Proof.
  unfold quoted. rewrite !line_feeds_app. change (line_feeds dq) with 0%nat. lia.
Qed.

Lemma csvRow_single_line datetime_text r :
  single_line datetime_text r -> line_feeds (csvRow datetime_text r) = 0%nat.
Proof.
  intros (H1 & H2 & H3 & H4 & H5 & H6 & H7 & H8).
  unfold csvRow. cbn [join].
  rewrite !line_feeds_app, !line_feeds_quoted, line_feeds_dec,
    H1, H2, H3, H4, H5, H6, H7, H8.
  reflexivity.
Qed.

(** X13: the lines of the export. For a request with the right key on
    an open database, the CSV text holds one line feed per row plus
    those inside the rows' own texts, which are copied as they are: an
    empty table gives the header alone, and when no stored text (nor
    the printed timestamp) holds a line feed the text has exactly one
    line per row after the header. *)
Theorem export_line_count datetime_text toISOString req now w :
  x_admin_key req = ADMIN_KEY (env w) ->
  available (db w) = true ->
  exists disposition content,
    fst (get_admin_export datetime_text toISOString req now w)
    = Resolved (mkResponse 200 (Csv disposition content))
    /\ line_feeds content
       = (List.length (rows (db w))
          + list_sum (map (fun r => line_feeds (csvRow datetime_text r))
                          (rows (db w))))%nat
    /\ (rows (db w) = [] -> content = header_line)
    /\ (Forall (single_line datetime_text) (rows (db w)) ->
        line_feeds content = List.length (rows (db w))).
Proof.
  intros Hk Hav.
  rewrite (@get_admin_export_run datetime_text toISOString req now w Hk Hav).
  do 2 eexists. split; [reflexivity |].
  set (rs := rows (db w)).
  assert (Hcount : line_feeds (csvContent datetime_text (sort_desc created_at rs))
                   = (List.length rs
                      + list_sum (map (fun r => line_feeds (csvRow datetime_text r)) rs))%nat).
  { unfold csvContent. rewrite line_feeds_join, length_map, map_map.
    rewrite <- (Permutation_length (sort_desc_perm created_at rs)).
    rewrite <- (list_sum_perm
                  (Permutation_map (fun r => line_feeds (csvRow datetime_text r))
                     (sort_desc_perm created_at rs))).
    reflexivity. }
  split; [exact Hcount |]. split.
  - intro E. unfold rs in *. rewrite E. reflexivity.
  - intro Hall. rewrite Hcount.
    assert (Hz : list_sum (map (fun r => line_feeds (csvRow datetime_text r)) rs) = 0%nat).
    { clear Hcount. unfold list_sum.
      induction Hall as [| r l Hr _ IH]; cbn [map fold_right]; [reflexivity |].
      rewrite (csvRow_single_line Hr), IH. reflexivity. }
    lia.
Qed.

Lemma export_line_count_witness :
  exists disposition content,
    fst (get_admin_export Samples.seconds_text Samples.seconds_text
           (Samples.admin_request (Some (js "s3cret"))) 1000 Samples.stocked_world)
    = Resolved (mkResponse 200 (Csv disposition content))
    /\ line_feeds content = 5%nat.
Proof.
  destruct (@export_line_count Samples.seconds_text Samples.seconds_text
              (Samples.admin_request (Some (js "s3cret"))) 1000%Z
              Samples.stocked_world eq_refl eq_refl)
    as (disposition & content & E & _ & _ & Hlines).
  exists disposition, content. split; [exact E |].
  apply Hlines. repeat constructor.
Defined.

(* ------------------------------------------------------------------ *)
(** ** The handler of server.js *)

Section LegacyFacts.

Variable sendMail : MailOptions -> option jsstring.

Local Opaque confirmation_html Legacy.confirmation_html js.

Lemma legacy_checks req now w :
  required_present (body req) = true ->
  Legacy.includes_at (text (b_email (body req))) = true ->
  let e := text (b_email (body req)) in
  Legacy.post_waitlist sendMail req now w =
    if available (db w)
    then
      if existsb (email_is e) (rows (db w))
      then (Resolved DuplicateEmail,
            mkWorld (db w) (env w) (EvSql (SelectIdByEmail e) :: trace w))
      else
        let r := raw_row (next_rowid (db w)) req now in
        (Resolved (Created (next_rowid (db w))),
         mkWorld (mkDb true (rows (db w) ++ [r]) (next_rowid (db w))) (env w)
           (legacy_events sendMail (env w) r
            ++ EvSql (insert_query r)
            :: EvSql (SelectIdByEmail (email r)) :: trace w))
    else
      (Resolved database_error,
       mkWorld (db w) (env w)
         (EvError "Database error:" (SqliteError "SQLITE_CANTOPEN")
          :: EvSql (SelectIdByEmail e) :: trace w)).
Proof.
  destruct req as [[n e p c pl ch] ip ra ua key].
  unfold required_present, Legacy.post_waitlist, try_catch, raw_row.
  cbn [body b_name b_email b_company b_biggest_challenge text
       req_ip remoteAddress user_agent_header].
  destruct n as [| | [| n0 n]]; try discriminate;
  destruct e as [| | [| e0 e]]; try discriminate;
  destruct c as [| | [| c0 c]]; try discriminate;
  destruct ch as [| | [| ch0 ch]]; try discriminate.
  intros _ Hat. cbn [text] in Hat. cbn [truthy negb orb text]. rewrite Hat. cbn [negb].
  unfold Legacy.with_callback at 1. unfold dbGet_id_by_email, on_db at 1.
  destruct (available (db w)) eqn:Hav; [| reflexivity].
  rewrite find_existsb. cbn [db env trace].
  destruct (find _ _) eqn:Hfind; cbn [option_map]; [reflexivity |].
  unfold Legacy.with_callback, dbRun_insert, on_db. cbn [db env trace].
  rewrite Hav, find_existsb, Hfind.
  unfold legacy_events, legacy_mail, Legacy.sendConfirmationEmail_called,
    Legacy.sendConfirmationEmail_settled, bind, getenv, console_log,
    console_error, emit, ret.
  cbn [db env trace name email company app].
  destruct (sendMail _); reflexivity.
Qed.

Lemma legacy_refused req now w :
  required_present (body req) = false
  \/ Legacy.includes_at (text (b_email (body req))) = false ->
  snd (Legacy.post_waitlist sendMail req now w) = w
  /\ is_created (fst (Legacy.post_waitlist sendMail req now w)) = false.
Proof.
  destruct (required_present (body req)) eqn:Hr.
  - intros [H | H]; [discriminate |].
    rewrite (legacy_invalid_email sendMail req now w Hr H). auto.
  - intros _. clear - Hr. destruct req as [[n e p c pl ch] ip ra ua key].
    unfold required_present in Hr. unfold Legacy.post_waitlist, try_catch.
    cbn [body b_name b_email b_company b_biggest_challenge] in *.
    destruct n as [| | [| n0 n]]; try (split; reflexivity);
    destruct e as [| | [| e0 e]]; try (split; reflexivity);
    destruct c as [| | [| c0 c]]; try (split; reflexivity);
    destruct ch as [| | [| ch0 ch]]; try (split; reflexivity).
    discriminate.
Qed.

End LegacyFacts.





(** X15: what the handler of server.js stores. It answers 201 exactly
    when the four fields are present and non-empty, the email holds an
    [@], the database is open and the email as submitted is not on
    file; it then stores the four texts as they were submitted, of any
    length, with no phone and no plan. In every other case the table is
    left as it was. Emails that were unique in the table stay so. *)
Theorem legacy_stores_as_submitted sendMail req now w :
  let out := Legacy.post_waitlist sendMail req now w in
  let e := text (b_email (body req)) in
  (is_created (fst out) = true <->
   required_present (body req) = true /\ Legacy.includes_at e = true
   /\ available (db w) = true /\ existsb (email_is e) (rows (db w)) = false)
  /\ (is_created (fst out) = true ->
      fst out = Resolved (Created (next_rowid (db w)))
      /\ rows (db (snd out))
         = rows (db w) ++ [raw_row (next_rowid (db w)) req now])
  /\ (is_created (fst out) = false -> db (snd out) = db w)
  /\ (NoDup (map email (rows (db w))) ->
      NoDup (map email (rows (db (snd out))))).
Proof.
  cbv zeta.
  destruct (required_present (body req)) eqn:Hr;
    [destruct (Legacy.includes_at (text (b_email (body req)))) eqn:Hat |].
  - rewrite (legacy_checks sendMail req now w Hr Hat). cbv zeta.
    destruct (available (db w)) eqn:Hav;
      [destruct (existsb (email_is (text (b_email (body req)))) (rows (db w))) eqn:Hex |];
      cbn [fst snd db rows is_created status DuplicateEmail Created database_error
           Z.eqb Pos.eqb].
    + split; [split; [discriminate | intros (_ & _ & _ & H); discriminate] |].
      split; [discriminate |]. split; auto.
    + split; [split; auto |]. split; [auto |]. split; [discriminate |].
      intro Hnd. rewrite map_app. cbn [map raw_row email].
      apply NoDup_snoc; [exact Hnd | apply email_not_on_file; exact Hex].
    + split; [split; [discriminate | intros (_ & _ & H & _); discriminate] |].
      split; [discriminate |]. split; auto.
  - destruct (legacy_refused sendMail req now w (or_intror Hat)) as (Hw & Hcr).
    rewrite Hcr, Hw.
    split; [split; [discriminate | intros (_ & H & _); discriminate] |].
    split; [discriminate |]. split; auto.
  - destruct (legacy_refused sendMail req now w (or_introl Hr)) as (Hw & Hcr).
    rewrite Hcr, Hw.
    split; [split; [discriminate | intros (H & _); discriminate] |].
    split; [discriminate |]. split; auto.
Qed.

Lemma legacy_stores_as_submitted_witness :
  fst (Legacy.post_waitlist Samples.transport_up Samples.tagged_name 1000
         Samples.fresh_world) = Resolved (Created 1)
  /\ map name (rows (db (snd (Legacy.post_waitlist Samples.transport_up
                               Samples.tagged_name 1000 Samples.fresh_world))))
     = [js "<b>Al</b>"].
Proof.
  destruct (legacy_stores_as_submitted Samples.transport_up Samples.tagged_name
              1000 Samples.fresh_world) as (Hiff & Hrow & _).
  assert (Hcr : is_created (fst (Legacy.post_waitlist Samples.transport_up
                  Samples.tagged_name 1000 Samples.fresh_world)) = true).
  { apply Hiff. repeat split. }
  destruct (Hrow Hcr) as (E1 & E2). split; [exact E1 |]. rewrite E2. reflexivity.
Defined.

(* ------------------------------------------------------------------ *)
(** ** Sanitising twice *)

Lemma trim_fixed t :
  (forall c r, t = c :: r -> is_space c = false) ->
  (forall r c, t = r ++ [c] -> is_space c = false) ->
  trim t = t.
Proof.
  intros Hhd Hlast. unfold trim, trimEnd. rewrite (trimStart_fixed Hhd).
  rewrite trimStart_fixed; [apply rev_involutive |].
  intros c r E. apply (Hlast (rev r) c).
  rewrite <- (rev_involutive t), E. reflexivity.
Qed.

Lemma trim_idempotent s : trim (trim s) = trim s.
Proof.
  destruct (trim_split s) as (_ & _ & _ & _ & _ & Hhd & Hlast).
  apply trim_fixed; assumption.
Qed.

Lemma trim_In s c : In c (trim s) -> In c s.
Proof.
  intro H. destruct (trim_split s) as (pre & suf & E & _).
  rewrite E. apply in_or_app. right. apply in_or_app. left. exact H.
Qed.

Lemma markup_free_strip s : markup_free s -> strip_angles s = s.
Proof.
  intro H. apply strip_angles_none. apply forallb_forall. intros c Hc.
  destruct (H c Hc) as (H1 & H2). unfold is_angle.
  apply N.eqb_neq in H1, H2. rewrite H1, H2. reflexivity.
Qed.

Lemma markup_free_trim s : markup_free s -> markup_free (trim s).
Proof. intros H c Hc. apply H, trim_In, Hc. Qed.

Lemma trim_same_length s : List.length (trim s) = List.length s -> trim s = s.
Proof.
  intro H. destruct (trim_split s) as (pre & suf & E & _).
  pose proof (f_equal (@List.length _) E) as El. rewrite !length_app in El.
  assert (Hp : pre = []) by (destruct pre; [reflexivity | simpl in El; lia]).
  assert (Hs : suf = []) by (destruct suf; [reflexivity | simpl in El; lia]).
  subst pre suf. simpl in E. rewrite app_nil_r in E. symmetry. exact E.
Qed.

(** X16: what a second pass of [sanitizeInput] does. It can only trim:
    removing [<] and [>] may bring whitespace to an end of the text,
    which the first pass leaves there; a third pass changes nothing. A
    text is left as it is exactly when it holds no [<] and no [>] and
    [trim] leaves it as it is. The result is never longer than the
    input. *)
Theorem sanitizeInput_twice s :
  sanitizeInput (sanitizeInput s) = trim (sanitizeInput s)
  /\ sanitizeInput (sanitizeInput (sanitizeInput s))
     = sanitizeInput (sanitizeInput s)
  /\ (sanitizeInput s = s <-> markup_free s /\ trim s = s)
  /\ (List.length (sanitizeInput s) <= List.length s)%nat
  /\ sanitizeInput (js "< a >") = js " a "
  /\ sanitizeInput (sanitizeInput (js "< a >")) = js "a".
Proof.
  assert (Htwice : forall t, sanitizeInput (sanitizeInput t) = trim (sanitizeInput t)).
  { intro t. unfold sanitizeInput at 1. apply markup_free_strip, markup_free_trim.
    apply sanitizeInput_markup_free. }
  split; [apply Htwice |]. split.
  - rewrite (Htwice (sanitizeInput s)), (Htwice s). apply trim_idempotent.
  - split; [| split; [apply sanitizeInput_length | split; reflexivity]].
    split.
    + intro E. assert (Hm : markup_free s) by (rewrite <- E; apply sanitizeInput_markup_free).
      split; [exact Hm |]. apply trim_same_length.
      pose proof (trim_length s). pose proof (sanitizeInput_length s) as Hl.
      unfold sanitizeInput, strip_angles in E.
      pose proof (filter_length_le (fun c => negb (is_angle c)) (trim s)) as Hf.
      rewrite E in Hf. lia.
    + intros (Hm & Ht). unfold sanitizeInput. rewrite Ht. apply markup_free_strip, Hm.
Qed.

Lemma sanitizeInput_twice_witness :
  sanitizeInput (js "a@b.co") = js "a@b.co".
Proof.
  apply (proj1 (proj2 (proj2 (sanitizeInput_twice (js "a@b.co"))))). split.
  - intros c Hc. vm_compute in Hc. intuition (subst; discriminate).
  - reflexivity.
Defined.

(* ------------------------------------------------------------------ *)
(** ** The email that is stored *)

Lemma no_space_trim s :
  forallb (fun c => negb (is_space c)) s = true -> trim s = s.
Proof.
  intro H. rewrite forallb_forall in H. apply trim_fixed.
  - intros c r E. apply negb_true_iff, H. rewrite E. left. reflexivity.
  - intros r c E. apply negb_true_iff, H. rewrite E. apply in_or_app.
    right. left. reflexivity.
Qed.

Lemma count_occ_strip s c :
  is_angle c = false ->
  count_occ N.eq_dec (strip_angles s) c = count_occ N.eq_dec s c.
Proof.
  intro Hc. unfold strip_angles. induction s as [| x s IH]; simpl; [reflexivity |].
  destruct (is_angle x) eqn:Hx; simpl.
  - destruct (N.eq_dec x c) as [-> | _]; [congruence | exact IH].
  - destruct (N.eq_dec x c); rewrite IH; reflexivity.
Qed.

Lemma forallb_strip (p : N -> bool) s :
  forallb p s = true -> forallb p (strip_angles s) = true.
Proof.
  intro H. rewrite forallb_forall in *. intros c Hc.
  apply strip_angles_In in Hc as [Hc _]. auto.
Qed.

(** X17: the email of a stored submission is the submitted one with its
    [<] and [>] removed, nothing else: it still holds exactly one [@],
    no whitespace and a dot, and it is the submitted email itself when
    that held neither character. It is the stored email, not the
    submitted one, that may fail [validateEmail]: a@b.< is accepted and
    stored as a@b. with nothing after the dot. *)
Theorem stored_email_shape sendMail req now w i w' :
  post_waitlist sendMail req now w = (Resolved (Created i), w') ->
  exists raw r,
    b_email (body req) = Str raw
    /\ rows (db w') = rows (db w) ++ [r]
    /\ email r = strip_angles raw
    /\ count_occ N.eq_dec (email r) at_sign = 1%nat
    /\ forallb (fun c => negb (is_space c)) (email r) = true
    /\ In dot (email r)
    /\ (markup_free raw -> email r = raw /\ validateEmail (email r) = true)
    /\ validateEmail (js "a@b.<") = true
    /\ validateEmail (sanitizeInput (js "a@b.<")) = false.
Proof.
  intro H. apply post_waitlist_created_inv in H as (V & _ & _ & _ & Hdb & _).
  apply passes_validation_iff in V as (_ & _ & Hacc). unfold email_accepted in Hacc.
  destruct (b_email (body req)) as [| | raw] eqn:Eraw; try discriminate.
  pose proof Hacc as Hshape. apply validateEmail_shape in Hshape
    as (Hcount & Hsp & l & d & El & _ & a & b & Ed & _).
  assert (Hs : sanitizeInput raw = strip_angles raw).
  { unfold sanitizeInput. rewrite (no_space_trim raw Hsp). reflexivity. }
  exists raw, (row_of i req now). rewrite Hdb.
  cbn [rows row_of email]. unfold sanitized_email. rewrite Eraw. cbn [text]. rewrite Hs.
  split; [reflexivity |]. split; [reflexivity |]. split; [reflexivity |].
  split; [rewrite count_occ_strip by reflexivity; exact Hcount |].
  split; [apply forallb_strip; exact Hsp |].
  split.
  { apply strip_angles_In. split; [| reflexivity].
    rewrite El, Ed. apply in_or_app. right. right. apply in_or_app. right.
    left. reflexivity. }
  split; [| split; reflexivity].
  intro Hm. rewrite (markup_free_strip Hm). split; [reflexivity | exact Hacc].
Qed.

Lemma stored_email_shape_witness :
  exists raw r,
    b_email (body Samples.alice_again) = Str raw
    /\ rows (db (snd (post_waitlist Samples.transport_up Samples.alice_again 1000
                        Samples.fresh_world)))
       = rows (db Samples.fresh_world) ++ [r]
    /\ email r = strip_angles raw.
Proof.
  destruct (@stored_email_shape Samples.transport_up Samples.alice_again 1000%Z
              Samples.fresh_world 1%Z
              (snd (post_waitlist Samples.transport_up Samples.alice_again 1000
                      Samples.fresh_world)))
    as (raw & r & H1 & H2 & H3 & _).
  - vm_compute. reflexivity.
  - exists raw, r. auto.
Defined.

(* ------------------------------------------------------------------ *)
(** ** Payments and the order of the first lines *)

(** X18: the Stripe client is built before the .env file is read. The
    payment-link route and the webhook answer 503 "Stripe not
    configured", without calling the SDK, exactly when
    STRIPE_SECRET_KEY is unset or empty in the environment the process
    was started with; a key given in the .env file changes nothing.
    The publishable key, read at each request, does come from the file
    when the process has none. *)
Theorem stripe_needs_process_key connect env file req :
  let srv := Payments.startup connect env file in
  let unset :=
    match Payments.STRIPE_SECRET_KEY env with
    | Some (_ :: _) => false
    | _ => true
    end in
  (unset = true ->
   Payments.create_payment_link srv req = (Payments.not_configured, [])
   /\ Payments.stripe_webhook srv req = (Payments.not_configured, []))
  /\ (Payments.pay_status (fst (Payments.create_payment_link srv req)) = 503%Z
      <-> unset = true)
  /\ (Payments.pay_status (fst (Payments.stripe_webhook srv req)) = 503%Z
      <-> unset = true)
  /\ Payments.stripe_key srv
     = Payments.mkPayResponse 200
         (Payments.PKey
            match Payments.STRIPE_PUBLISHABLE_KEY env with
            | Some k => Some k
            | None => Payments.STRIPE_PUBLISHABLE_KEY file
            end).
Proof.
  cbv zeta.
  unfold Payments.startup, Payments.create_payment_link, Payments.stripe_webhook,
    Payments.stripe_key, Payments.dotenv_config.
  cbn [Payments.stripe Payments.penv Payments.STRIPE_PUBLISHABLE_KEY
       Payments.STRIPE_WEBHOOK_SECRET].
  destruct (Payments.STRIPE_SECRET_KEY env) as [[| c k] |];
    try (repeat split; auto; fail).
  split; [discriminate |]. split; [| split; [| reflexivity]].
  - destruct (truthy (Payments.priceId (Payments.pay_body req))); cbn [negb].
    + destruct (Payments.sessions_create _ _); cbn; split; discriminate.
    + cbn. split; discriminate.
  - destruct (Payments.constructEvent _ _ _ _); cbn; split; discriminate.
Qed.

Lemma stripe_needs_process_key_witness :
  let file := Payments.mkProcessEnv (Some (js "sk_test_1")) (Some (js "pk_test_1")) None in
  let env := Payments.mkProcessEnv None None None in
  let sdk := Payments.mkStripe (fun _ => inl (js "down")) (fun _ _ _ => inl (js "bad")) in
  let req := Payments.mkPayRequest (Payments.mkPayBody (Str (js "price_1")) None None)
               (Payments.ParsedFrom []) (js "https") (Some (js "lemonsleads.co.uk")) None in
  Payments.create_payment_link (Payments.startup (fun _ => sdk) env file) req
  = (Payments.not_configured, [])
  /\ Payments.stripe_key (Payments.startup (fun _ => sdk) env file)
     = Payments.mkPayResponse 200 (Payments.PKey (Some (js "pk_test_1"))).
Proof.
  cbv zeta. split.
  - apply (proj1 (stripe_needs_process_key
                    (fun _ => Payments.mkStripe (fun _ => inl (js "down"))
                                (fun _ _ _ => inl (js "bad")))
                    (Payments.mkProcessEnv None None None)
                    (Payments.mkProcessEnv (Some (js "sk_test_1"))
                       (Some (js "pk_test_1")) None)
                    (Payments.mkPayRequest
                       (Payments.mkPayBody (Str (js "price_1")) None None)
                       (Payments.ParsedFrom []) (js "https")
                       (Some (js "lemonsleads.co.uk")) None))).
    reflexivity.
  - reflexivity.
Defined.


